(** * Movie discovery app: rating aggregation and the recommendation engine

    Shallow embedding of
    - [calculateAggregatedScore] (src/src/lib/movieApi.ts), and
    - the [RecommendationEngine] class (src/src/components/WatchlistButtons.tsx):
      [analyzePreferences], [getTopItems], [getGenreName],
      [generateRecommendations], [calculateRecommendationScore],
      [generateReasons], [determineCategory],
      [generateTrendingRecommendations];
    - [convertTMDBToEnhanced] (src/src/lib/movieApi.ts);
    - the watchlist store (src/src/context/WatchlistContext.tsx): its reducer,
      the provider's functions and its [localStorage] effects, and the
      compact watchlist button (src/src/components/WatchlistButtons.tsx);
    - the recommendations route (src/src/pages/api/recommendations.ts):
      [handler], [getCandidateMovies], [getCategoryStats].

    JS numbers are modelled by exact rationals [Q] (floating-point rounding
    is not modelled); the only place where a JS number can be [Infinity] in
    the engine, [Math.min] over an empty array, gets an extended type. *)

From Stdlib Require Import QArith Qround Qminmax.
From Stdlib Require Import String Ascii.
From Stdlib Require Import ZArith List Bool Lia.
From Stdlib Require Import Sorting.Sorted Sorting.Permutation.
From Stdlib Require Import DecimalString.
Import ListNotations.

Open Scope string_scope.
Open Scope Q_scope.

(** ** JavaScript helpers *)

(** [a < b] on numbers. *)
Definition Qltb (a b : Q) : bool := negb (Qle_bool b a).

(** Truthiness of a number: [0] is falsy (NaN is not modelled). *)
Definition truthy (q : Q) : bool := negb (Qeq_bool q 0).

(** [x || 0] for an optional number field ([undefined || 0] is [0]). *)
Definition or0 (o : option Q) : Q :=
  match o with Some q => q | None => 0 end.

(** Truthiness of an optional number field. *)
Definition truthy_opt (o : option Q) : bool :=
  match o with Some q => truthy q | None => false end.

(** [Math.round]: rounds half-way cases towards [+Infinity]. *)
Definition js_round (q : Q) : Z := Qfloor (q + (1 # 2)).

(** [arr.slice(0, n)] for an integer [n]: a negative end counts from the
    end of the array. *)
Definition js_slice0 {A} (l : list A) (n : Z) : list A :=
  let len := Z.of_nat (length l) in
  firstn (Z.to_nat (if (n <? 0)%Z then len + n else n)%Z) l.

(** [Array.prototype.sort] with a comparator [(a, b) => key b - key a]:
    a stable sort by descending key, written as an insertion sort.  [x]
    comes from earlier in the input than every element of the sorted tail,
    so it goes in front of the first element whose key is not larger. *)
Section SortDesc.
Context {A : Type} (key : A -> Q).

Fixpoint insert_desc (x : A) (l : list A) : list A :=
  match l with
  | [] => [x]
  | y :: l' => if Qle_bool (key y) (key x) then x :: y :: l'
               else y :: insert_desc x l'
  end.

Definition sort_desc (l : list A) : list A := fold_right insert_desc [] l.
End SortDesc.

(** [b] may follow [a] in a list sorted by descending [key]. *)
Definition desc {A} (key : A -> Q) (a b : A) : Prop := key b <= key a.

(** ** Rating aggregation ([movieApi.ts]) *)

(** The structured ratings object built by [mergeOMDBData]; every provider
    score is optional ([ratings.tmdb?.score] and so on). *)
Record ratings := mkRatings {
  tmdb_score : option Q;            (* ratings.tmdb.score, 0-10 *)
  imdb_score : option Q;            (* ratings.imdb.score, 0-10 *)
  rt_critics_score : option Q;      (* ratings.rottenTomatoes.critics.score, 0-100 *)
  metacritic_score : option Q       (* ratings.metacritic.score, 0-100 *)
}.

(** [if (x?.score > 0) scores.push({ value: f(x.score), weight: w })]. *)
Definition push_if_positive (o : option Q) (f : Q -> Q) (w : Q)
    : list (Q * Q) :=
  match o with
  | Some s => if Qltb 0 s then [(f s, w)] else []
  | None => []
  end.

Definition aggregated_scores (r : ratings) : list (Q * Q) :=
  push_if_positive (tmdb_score r) (fun s => s) 0.25 ++
  push_if_positive (imdb_score r) (fun s => s) 0.35 ++
  push_if_positive (rt_critics_score r) (fun s => s / 10) 0.25 ++
  push_if_positive (metacritic_score r) (fun s => s / 10) 0.15.

Definition calculateAggregatedScore (r : ratings) : Q :=
  let scores := aggregated_scores r in
  match scores with
  | [] => 0
  | _ =>
    let totalWeight := fold_left (fun sum s => sum + snd s) scores 0 in
    let weightedSum := fold_left (fun sum s => sum + fst s * snd s) scores 0 in
    inject_Z (js_round (weightedSum / totalWeight * 10)) / 10
  end.

(** ** The recommendation engine ([WatchlistButtons.tsx]) *)

(** Content kind.  [EnhancedMovie] declares no such field and the engine
    never reads one; watchlist items carry it at run time as [media_type]. *)
Inductive media_kind := movie_kind | tv_kind.

(** The fields of [EnhancedMovie] that the engine reads.
    [release_year] is [new Date(release_date).getFullYear()] when
    [release_date] is a non-empty string that parses, [None] when it is
    empty (falsy) or does not parse (every comparison with NaN is false, so
    the engine treats both the same way).  Missing number fields are [None]. *)
Record movie := mkMovie {
  id : Z;
  media_type : option media_kind;
  vote_average : option Q;
  genre_ids : list N;
  popularity : option Q;
  release_year : option Z;
  original_language : option string;
  actors : option string;
  director : option string
}.

(** Truthiness of an optional string: [undefined] and [''] are falsy. *)
Definition truthy_str (o : option string) : option string :=
  match o with
  | Some EmptyString | None => None
  | Some s => Some s
  end.

(** [toLowerCase] on ASCII letters. *)
Definition lower_char (c : ascii) : ascii :=
  let n := nat_of_ascii c in
  if (65 <=? n)%nat && (n <=? 90)%nat then ascii_of_nat (n + 32) else c.

Fixpoint lower (s : string) : string :=
  match s with
  | EmptyString => EmptyString
  | String c s' => String (lower_char c) (lower s')
  end.

(** [trim] on ASCII white space. *)
Definition is_space (c : ascii) : bool :=
  match nat_of_ascii c with
  | 9 | 10 | 11 | 12 | 13 | 32 => true
  | _ => false
  end%nat.

Fixpoint trim_left (s : string) : string :=
  match s with
  | String c s' => if is_space c then trim_left s' else s
  | EmptyString => EmptyString
  end.

Fixpoint rev_string (s : string) (acc : string) : string :=
  match s with
  | EmptyString => acc
  | String c s' => rev_string s' (String c acc)
  end.

Definition trim (s : string) : string :=
  rev_string (trim_left (rev_string (trim_left s) EmptyString)) EmptyString.

(** [s.split(', ')]. *)
Fixpoint split_comma_space (s : string) : list string :=
  match s with
  | EmptyString => [EmptyString]
  | String "," (String " " rest) => EmptyString :: split_comma_space rest
  | String c rest =>
    match split_comma_space rest with
    | w :: ws => String c w :: ws
    | [] => [String c EmptyString]
    end
  end.

(** [s.includes(p)]. *)
Fixpoint includes (s p : string) : bool :=
  prefix p s || match s with
                | EmptyString => false
                | String _ s' => includes s' p
                end.

(** [getTopItems]: counts of the normalised items in first-insertion order,
    sorted by descending count, the first [limit] keys.  The counts are kept
    as an association list; this is the plain object [counts] of the source
    for keys that are ordinary names: a key that is an array index
    ([Object.entries] lists those first, ascending), [__proto__], or the
    name of an [Object.prototype] member such as [constructor] behaves
    differently there and is outside this model. *)
Fixpoint count_add (k : string) (m : list (string * nat)) : list (string * nat) :=
  match m with
  | [] => [(k, 1%nat)]
  | (k', c) :: m' => if String.eqb k k' then (k', S c) :: m'
                     else (k', c) :: count_add k m'
  end.

Definition getTopItems (items : list string) (limit : nat) : list string :=
  let counts := fold_left (fun m item => count_add (lower (trim item)) m)
                          items [] in
  map fst (firstn limit
    (sort_desc (fun e => inject_Z (Z.of_nat (snd e))) counts)).

Definition getGenreName (genreId : N) : string :=
  match genreId with
  | 28 => "Action" | 12 => "Adventure" | 16 => "Animation" | 35 => "Comedy"
  | 80 => "Crime" | 99 => "Documentary" | 18 => "Drama" | 10751 => "Family"
  | 14 => "Fantasy" | 36 => "History" | 27 => "Horror" | 10402 => "Music"
  | 9648 => "Mystery" | 10749 => "Romance" | 878 => "Science Fiction"
  | 10770 => "TV Movie" | 53 => "Thriller" | 10752 => "War"
  | 37 => "Western"
  | _ => "Unknown"
  end%N.

(** Per-genre statistics ([genreCount[genreId]]). *)
Record genre_stat := mkGenreStat {
  gs_name : string;
  gs_count : nat;
  gs_totalRating : Q
}.

(** [genreCount] keyed by genre id.  Genre ids are array-index-like keys,
    so [Object.entries] lists them in ascending numeric order: the map is an
    association list kept sorted by key. *)
Definition genre_bump (r : Q) (st : genre_stat) : genre_stat :=
  mkGenreStat (gs_name st) (S (gs_count st)) (gs_totalRating st + r).

Fixpoint genre_add (g : N) (r : Q) (m : list (N * genre_stat))
    : list (N * genre_stat) :=
  match m with
  | [] => [(g, genre_bump r (mkGenreStat (getGenreName g) 0 0))]
  | (k, st) :: m' =>
    if (g =? k)%N then (k, genre_bump r st) :: m'
    else if (g <? k)%N then (g, genre_bump r (mkGenreStat (getGenreName g) 0 0)) :: m
    else (k, st) :: genre_add g r m'
  end.

(** The [movie.genre_ids?.forEach] step of one watchlist item. *)
Definition genre_count_movie (m : list (N * genre_stat)) (mv : movie)
    : list (N * genre_stat) :=
  fold_left (fun acc g => genre_add g (or0 (vote_average mv)) acc)
            (genre_ids mv) m.

Definition genreCount (wl : list movie) : list (N * genre_stat) :=
  fold_left genre_count_movie wl [].

Record genre_pref := mkGenrePref {
  gp_id : N;
  gp_name : string;
  gp_weight : Q
}.

Definition nat_Q (n : nat) : Q := inject_Z (Z.of_nat n).

Definition favoriteGenres (wl : list movie) : list genre_pref :=
  firstn 5 (sort_desc gp_weight
    (map (fun e => mkGenrePref (fst e) (gs_name (snd e))
           ((nat_Q (gs_count (snd e)) / nat_Q (length wl)) *
            (gs_totalRating (snd e) / nat_Q (gs_count (snd e)) / 10)))
         (genreCount wl))).

(** A JS number that may be [Infinity] (only [Math.min()] of no arguments
    produces one here). *)
Inductive js_num := Fin (z : Z) | PosInf.

Definition js_min2 (a b : js_num) : js_num :=
  match a, b with
  | PosInf, x | x, PosInf => x
  | Fin x, Fin y => Fin (Z.min x y)
  end.

(** [Math.min(...l)]. *)
Definition js_min (l : list Z) : js_num :=
  fold_left (fun acc y => js_min2 acc (Fin y)) l PosInf.

(** [a || b] on numbers: [0] is falsy, [Infinity] is truthy. *)
Definition js_or (a b : js_num) : js_num :=
  match a with Fin 0 => b | _ => a end.

(** [year >= min] for a finite [year]. *)
Definition js_ge (y : Z) (a : js_num) : bool :=
  match a with Fin x => (x <=? y)%Z | PosInf => false end.

(** The [years] array: one entry per item whose release year is [> 1900]. *)
Definition years_of (wl : list movie) : list Z :=
  flat_map (fun mv => match release_year mv with
                      | Some y => if (1900 <? y)%Z then [y] else []
                      | None => []
                      end) wl.

Definition minYear (current_year : Z) (wl : list movie) : js_num :=
  let sortedYears := sort_desc inject_Z (years_of wl) in
  let recentYears := js_slice0 sortedYears
                       (Qceiling (nat_Q (length sortedYears) * 0.7)) in
  js_or (js_min recentYears) (Fin (current_year - 10)).

(** [ratings] and [avgRating]. *)
Definition positive_ratings (wl : list movie) : list Q :=
  filter (fun r => Qltb 0 r) (map (fun m => or0 (vote_average m)) wl).

Definition avgRating (wl : list movie) : Q :=
  let ratings := positive_ratings wl in
  match ratings with
  | [] => 7
  | _ => fold_left Qplus ratings 0 / nat_Q (length ratings)
  end.

Definition languages_of (wl : list movie) : list string :=
  flat_map (fun mv => match truthy_str (original_language mv) with
                      | Some l => [l] | None => [] end) wl.

Definition actors_of (wl : list movie) : list string :=
  flat_map (fun mv => match truthy_str (actors mv) with
                      | Some a => firstn 3 (split_comma_space a)
                      | None => [] end) wl.

Definition directors_of (wl : list movie) : list string :=
  flat_map (fun mv => match truthy_str (director mv) with
                      | Some d => [d] | None => [] end) wl.

Record UserPreferences := mkPrefs {
  favorite_genres : list genre_pref;
  rating_min : Q;
  rating_max : Q;
  year_min : js_num;
  year_max : Z;
  averageRating : Q;
  totalWatched : nat;
  preferredLanguages : list string;
  actorPreferences : list string;
  directorPreferences : list string
}.

(** [analyzePreferences]; [current_year] is [new Date().getFullYear()]. *)
Definition analyzePreferences (current_year : Z) (wl : list movie)
    : option UserPreferences :=
  match wl with
  | [] => None
  | _ =>
    Some (mkPrefs (favoriteGenres wl)
                  (Qmax (avgRating wl - 1.5) 0) 10
                  (minYear current_year wl) current_year
                  (avgRating wl) (length wl)
                  (getTopItems (languages_of wl) 3)
                  (getTopItems (actors_of wl) 10)
                  (getTopItems (directors_of wl) 5))
  end.

(** ** Scoring a candidate ([calculateRecommendationScore]) *)

(** [this.preferences.favoriteGenres.find(g => g.id === genreId)]. *)
Definition find_genre (p : UserPreferences) (g : N) : option genre_pref :=
  find (fun gp => (gp_id gp =? g)%N) (favorite_genres p).

Definition genreWeight : Q := 0.4.
Definition ratingWeight : Q := 0.25.
Definition yearWeight : Q := 0.15.
Definition popularityWeight : Q := 0.1.
Definition peopleWeight : Q := 0.1.

Definition genre_term (p : UserPreferences) (mv : movie) : Q :=
  match genre_ids mv with
  | [] => 0
  | gs =>
    fold_left (fun sum g => sum + match find_genre p g with
                                  | Some gp => gp_weight gp
                                  | None => 0 end) gs 0
      / nat_Q (length gs) * genreWeight
  end.

Definition rating_term (p : UserPreferences) (mv : movie) : Q :=
  match vote_average mv with
  | Some v =>
    if truthy v && Qle_bool (rating_min p) v && Qle_bool v (rating_max p)
    then Qmin (v / 10) 1 * ratingWeight else 0
  | None => 0
  end.

Definition year_term (p : UserPreferences) (mv : movie) : Q :=
  match release_year mv with
  | Some y => if js_ge y (year_min p) && (y <=? year_max p)%Z
              then yearWeight else 0
  | None => 0
  end.

Definition popularity_term (mv : movie) : Q :=
  match popularity mv with
  | Some pop => if truthy pop then Qmin (pop / 1000) 1 * popularityWeight
                else 0
  | None => 0
  end.

Definition actor_score (p : UserPreferences) (mv : movie) : Q :=
  match truthy_str (actors mv), actorPreferences p with
  | Some a, _ :: _ =>
    let movieActors := split_comma_space (lower a) in
    let matching := filter (fun actor =>
                      existsb (fun pref => includes actor pref)
                              (actorPreferences p)) movieActors in
    nat_Q (length matching) / nat_Q (length movieActors) * 0.7
  | _, _ => 0
  end.

Definition director_score (p : UserPreferences) (mv : movie) : Q :=
  match truthy_str (director mv), directorPreferences p with
  | Some d, _ :: _ =>
    if existsb (fun pref => includes (lower d) pref) (directorPreferences p)
    then 0.3 else 0
  | _, _ => 0
  end.

Definition people_term (p : UserPreferences) (mv : movie) : Q :=
  Qmin (0 + actor_score p mv + director_score p mv) 1 * peopleWeight.

Definition maxScore : Q :=
  genreWeight + ratingWeight + yearWeight + popularityWeight + peopleWeight.

Definition calculateRecommendationScore (p : UserPreferences) (mv : movie) : Q :=
  let score := 0 + genre_term p mv + rating_term p mv + year_term p mv
                 + popularity_term mv + people_term p mv in
  Qmin (score / maxScore) 1.

(** ** Reasons and categories *)

Inductive reason_type :=
  r_genre | r_rating | r_actor | r_director | r_similar | r_trending | r_year.

Record RecommendationReason := mkReason {
  r_type : reason_type;
  description : string;
  confidence : Q
}.

Inductive category :=
  because_you_watched | genre_match | highly_rated | trending | similar_taste.

Record Recommendation := mkRec {
  rec_movie : movie;
  rec_score : Q;
  reasons : list RecommendationReason;
  rec_category : category
}.

Definition z_str (z : Z) : string := NilZero.string_of_int (Z.to_int z).

(** [x.toFixed(1)]; ties go to the larger magnitude. *)
Definition to_fixed1 (q : Q) : string :=
  let '(sign, a) := if Qltb q 0 then ("-", - q) else ("", q) in
  let n := Qfloor (a * 10 + (1 # 2)) in
  sign ++ z_str (n / 10) ++ "." ++ z_str (n mod 10).

Definition generateReasons (p : UserPreferences) (mv : movie)
    : list RecommendationReason :=
  let genre_reasons :=
    let matchingGenres := flat_map (fun g => match find_genre p g with
                                             | Some gp => [gp] | None => []
                                             end) (genre_ids mv) in
    match sort_desc gp_weight matchingGenres with
    | topGenre :: _ =>
      [mkReason r_genre ("You enjoy " ++ gp_name topGenre ++ " movies")
                (gp_weight topGenre)]
    | [] => []
    end in
  let rating_reasons :=
    match vote_average mv with
    | Some v =>
      if truthy v && Qle_bool (rating_min p) v
      then [mkReason r_rating ("Highly rated (" ++ to_fixed1 v ++ "/10)")
                     (Qmin (v / 10) 1)]
      else []
    | None => []
    end in
  firstn 3 (genre_reasons ++ rating_reasons).

Definition reason_type_eqb (a b : reason_type) : bool :=
  match a, b with
  | r_genre, r_genre | r_rating, r_rating | r_actor, r_actor
  | r_director, r_director | r_similar, r_similar
  | r_trending, r_trending | r_year, r_year => true
  | _, _ => false
  end.

Definition determineCategory (mv : movie) (rs : list RecommendationReason)
    : category :=
  if existsb (fun r => reason_type_eqb (r_type r) r_genre
                       && Qltb 0.7 (confidence r)) rs
  then genre_match
  else if truthy_opt (vote_average mv) && Qle_bool 8 (or0 (vote_average mv))
  then highly_rated
  else if truthy_opt (popularity mv) && Qltb 500 (or0 (popularity mv))
  then trending
  else similar_taste.

(** ** Ranking ([generateRecommendations]) *)

(** A [RecommendationEngine] instance: the watchlist given to the
    constructor and the preferences it computed from it. *)
Record engine := mkEngine {
  watchlist : list movie;
  preferences : option UserPreferences
}.

Definition new_engine (current_year : Z) (wl : list movie) : engine :=
  mkEngine wl (analyzePreferences current_year wl).

Definition trending_rec (mv : movie) : Recommendation :=
  mkRec mv (Qmin (or0 (popularity mv) / 1000) 1)
        [mkReason r_trending "Currently trending" 0.8] trending.

Definition trending_pool (cands : list movie) : list movie :=
  filter (fun mv => truthy_opt (popularity mv) && Qltb 100 (or0 (popularity mv)))
         cands.

Definition generateTrendingRecommendations (cands : list movie) (limit : Z)
    : list Recommendation :=
  map trending_rec
      (js_slice0 (sort_desc (fun mv => or0 (popularity mv)) (trending_pool cands))
                 limit).

(** [this.watchlist.some(w => w.id === movie.id)]. *)
Definition in_watchlist (wl : list movie) (mv : movie) : bool :=
  existsb (fun w => (id w =? id mv)%Z) wl.

(** The [forEach] loop: the recommendations pushed, in candidate order. *)
Definition scored_candidates (p : UserPreferences) (wl : list movie)
    (cands : list movie) : list Recommendation :=
  flat_map (fun mv =>
    if in_watchlist wl mv then []
    else
      let score := calculateRecommendationScore p mv in
      let rs := generateReasons p mv in
      let cat := determineCategory mv rs in
      if Qltb 0.3 score then [mkRec mv score rs cat] else []) cands.

Definition generateRecommendations (e : engine) (cands : list movie)
    (limit : Z) : list Recommendation :=
  match preferences e, watchlist e with
  | Some p, _ :: _ =>
    js_slice0 (sort_desc rec_score (scored_candidates p (watchlist e) cands))
              limit
  | _, _ => generateTrendingRecommendations cands limit
  end.

(** ** Readings of the specification *)

(** Rating aggregation as the spec words it: a provider counts when it has
    a positive score (scores are [>= 0] by the data model, [0] meaning "no
    data"); the weights of the present providers are renormalised to sum
    to 1; with no provider present the score is 0. *)
Definition present (o : option Q) : bool :=
  match o with Some s => Qltb 0 s | None => false end.

Definition spec_weight (o : option Q) (w : Q) : Q :=
  if present o then w else 0.

Definition spec_total_weight (r : ratings) : Q :=
  spec_weight (tmdb_score r) 0.25 + spec_weight (imdb_score r) 0.35 +
  spec_weight (rt_critics_score r) 0.25 + spec_weight (metacritic_score r) 0.15.

Definition spec_weighted_average (r : ratings) : Q :=
  let W := spec_total_weight r in
  if Qeq_bool W 0 then 0
  else spec_weight (tmdb_score r) 0.25 / W * or0 (tmdb_score r) +
       spec_weight (imdb_score r) 0.35 / W * or0 (imdb_score r) +
       spec_weight (rt_critics_score r) 0.25 / W * (or0 (rt_critics_score r) / 10) +
       spec_weight (metacritic_score r) 0.15 / W * (or0 (metacritic_score r) / 10).

(** The provider scores present in a ratings record, on the 0-10 scale. *)
Definition present_values (r : ratings) : list Q :=
  (if present (tmdb_score r) then [or0 (tmdb_score r)] else []) ++
  (if present (imdb_score r) then [or0 (imdb_score r)] else []) ++
  (if present (rt_critics_score r) then [or0 (rt_critics_score r) / 10] else []) ++
  (if present (metacritic_score r) then [or0 (metacritic_score r) / 10] else []).

(** The year band as the spec words it: the distinct release years sorted
    descending, the most recent [ceil(70%)] of them, their minimum. *)
Definition spec_distinct_year_band_min (wl : list movie) : option Z :=
  let ds := nodup Z.eq_dec (years_of wl) in
  let k := Z.to_nat (Qceiling (nat_Q (length ds) * 0.7)) in
  match firstn k (sort_desc inject_Z ds) with
  | [] => None
  | y :: ys => Some (fold_left Z.min ys y)
  end.

(** Genre weights as the spec words them: the number of occurrences of the
    genre id in the saved items' genre lists over the number of saved
    items, times the average rating (missing ratings count 0) over those
    occurrences divided by 10. *)
Definition all_genres (wl : list movie) : list N := flat_map genre_ids wl.

Definition genre_occurrences (wl : list movie) (g : N) : nat :=
  count_occ N.eq_dec (all_genres wl) g.

Definition genre_rating_total (wl : list movie) (g : N) : Q :=
  fold_right (fun w acc =>
    nat_Q (count_occ N.eq_dec (genre_ids w) g) * or0 (vote_average w) + acc)
    0 wl.

Definition spec_genre_weight (wl : list movie) (g : N) : Q :=
  (nat_Q (genre_occurrences wl g) / nat_Q (length wl)) *
  (genre_rating_total wl g / nat_Q (genre_occurrences wl g) / 10).

(** The nested [forEach] loops of [analyzePreferences] visit the
    (genre id, rating) pairs below in order. *)
Definition genre_pairs (wl : list movie) : list (N * Q) :=
  flat_map (fun w => map (fun g => (g, or0 (vote_average w))) (genre_ids w)) wl.

Definition pair_count (g : N) (P : list (N * Q)) : nat :=
  length (filter (fun pr => (fst pr =? g)%N) P).

Definition pair_total (g : N) (P : list (N * Q)) : Q :=
  fold_right (fun pr acc => (if (fst pr =? g)%N then snd pr else 0) + acc) 0 P.

(** [genreCount] after the pairs [P]: keys strictly increasing, exactly the
    ids of [P], each with its number of pairs and the sum of their ratings. *)
Definition genre_count_inv (P : list (N * Q)) (m : list (N * genre_stat)) : Prop :=
  StronglySorted N.lt (map fst m) /\
  (forall k, In k (map fst m) <-> In k (map fst P)) /\
  (forall k st, In (k, st) m ->
     gs_count st = pair_count k P /\ gs_totalRating st == pair_total k P).

(** ** Sample data *)

(** Scenario 1 of the spec: one saved action film rated 9.0 from 2020. *)
Definition saved_action : movie :=
  mkMovie 1 (Some movie_kind) (Some 9) [28%N] (Some 50) (Some 2020%Z) None None None.

(** Scenario 2 of the spec: an action candidate rated 8.5 from 2021 with
    popularity 600. *)
Definition cand_action : movie :=
  mkMovie 2 (Some movie_kind) (Some 8.5) [28%N] (Some 600) (Some 2021%Z) None None None.

(** A candidate with popularity 200 and nothing else. *)
Definition cand_pop200 : movie :=
  mkMovie 3 (Some movie_kind) None [] (Some 200) None None None None.

(** A candidate with popularity 300 and nothing else. *)
Definition cand_pop300 : movie :=
  mkMovie 4 (Some movie_kind) None [] (Some 300) None None None None.

(** A saved film and a TV show sharing its id 5. *)
Definition saved_movie5 : movie :=
  mkMovie 5 (Some movie_kind) (Some 9) [28%N] None (Some 2020%Z) None None None.

Definition cand_tv5 : movie :=
  mkMovie 5 (Some tv_kind) (Some 8.5) [28%N] (Some 600) (Some 2021%Z) None None None.

(** A candidate with a negative popularity and no other data. *)
Definition cand_negative_pop : movie :=
  mkMovie 6 (Some movie_kind) None [] (Some (-1000)) None None None None.

(** A saved film released in [y]. *)
Definition saved_in_year (i : Z) (y : Z) : movie :=
  mkMovie i (Some movie_kind) (Some 7) [18%N] None (Some y) None None None.

(** Three saved films from 2020 and one from 2000. *)
Definition saved_years_2020_2000 : list movie :=
  [saved_in_year 11 2020; saved_in_year 12 2020; saved_in_year 13 2020;
   saved_in_year 14 2000].

(** ** The watchlist store ([WatchlistContext.tsx]) *)

(** A saved item ([WatchlistItem]); the fields are prefixed with [wi_]
    where the bare name is taken by [movie]. *)
Record WatchlistItem := mkItem {
  wi_id : Z;
  wi_title : string;
  wi_name : option string;
  wi_poster_path : option string;
  wi_release_date : option string;
  wi_first_air_date : option string;
  wi_vote_average : Q;
  wi_overview : string;
  wi_media_type : media_kind;
  added_date : string;
  watched : bool;
  watched_date : option string
}.

Record WatchlistState := mkState {
  items : list WatchlistItem;
  loading : bool
}.

Inductive WatchlistAction :=
| SET_LOADING (payload : bool)
| LOAD_WATCHLIST (payload : list WatchlistItem)
| ADD_ITEM (payload : WatchlistItem)
| REMOVE_ITEM (payload : Z)
| TOGGLE_WATCHED (payload_id : Z) (payload_watched : bool)
| CLEAR_WATCHLIST.

Definition media_kind_eqb (a b : media_kind) : bool :=
  match a, b with
  | movie_kind, movie_kind | tv_kind, tv_kind => true
  | _, _ => false
  end.

(** [{ ...item, watched, watched_date: watched ? now : undefined }]. *)
Definition set_watched (now : string) (w : bool) (item : WatchlistItem)
    : WatchlistItem :=
  mkItem (wi_id item) (wi_title item) (wi_name item) (wi_poster_path item)
         (wi_release_date item) (wi_first_air_date item)
         (wi_vote_average item) (wi_overview item) (wi_media_type item)
         (added_date item) w (if w then Some now else None).

(** [watchlistReducer]; [now] is [new Date().toISOString()] at the time
    the action is reduced. *)
Definition watchlistReducer (now : string) (state : WatchlistState)
    (action : WatchlistAction) : WatchlistState :=
  match action with
  | SET_LOADING b => mkState (items state) b
  | LOAD_WATCHLIST l => mkState l false
  | ADD_ITEM it =>
    if existsb (fun item => (wi_id item =? wi_id it)%Z &&
                            media_kind_eqb (wi_media_type item) (wi_media_type it))
               (items state)
    then state
    else mkState (items state ++ [it])%list (loading state)
  | REMOVE_ITEM i =>
    mkState (filter (fun item => negb (wi_id item =? i)%Z) (items state))
            (loading state)
  | TOGGLE_WATCHED i w =>
    mkState (map (fun item => if (wi_id item =? i)%Z then set_watched now w item
                              else item) (items state))
            (loading state)
  | CLEAR_WATCHLIST => mkState [] (loading state)
  end.

(** The argument of [addToWatchlist]:
    [Omit<WatchlistItem, 'added_date' | 'watched'>]. *)
Record NewItem := mkNewItem {
  ni_id : Z;
  ni_title : string;
  ni_name : option string;
  ni_poster_path : option string;
  ni_release_date : option string;
  ni_first_air_date : option string;
  ni_vote_average : Q;
  ni_overview : string;
  ni_media_type : media_kind;
  ni_watched_date : option string
}.

(** [{ ...item, added_date: now, watched: false }]. *)
Definition watchlist_item_of (now : string) (item : NewItem) : WatchlistItem :=
  mkItem (ni_id item) (ni_title item) (ni_name item) (ni_poster_path item)
         (ni_release_date item) (ni_first_air_date item) (ni_vote_average item)
         (ni_overview item) (ni_media_type item) now false (ni_watched_date item).

(** The provider's functions.  Each one dispatches to the reducer; the
    state it returns is the state after that dispatch. *)
Definition addToWatchlist (now : string) (item : NewItem) (state : WatchlistState)
    : WatchlistState :=
  watchlistReducer now state (ADD_ITEM (watchlist_item_of now item)).

Definition removeFromWatchlist (now : string) (i : Z) (state : WatchlistState)
    : WatchlistState :=
  watchlistReducer now state (REMOVE_ITEM i).

(** [state.items.find(item => item.id === id)]. *)
Definition find_item (i : Z) (l : list WatchlistItem) : option WatchlistItem :=
  find (fun item => (wi_id item =? i)%Z) l.

Definition toggleWatched (now : string) (i : Z) (state : WatchlistState)
    : WatchlistState :=
  match find_item i (items state) with
  | Some item => watchlistReducer now state (TOGGLE_WATCHED i (negb (watched item)))
  | None => state
  end.

Definition isInWatchlist (i : Z) (state : WatchlistState) : bool :=
  existsb (fun item => (wi_id item =? i)%Z) (items state).

Definition isWatched (i : Z) (state : WatchlistState) : bool :=
  match find_item i (items state) with
  | Some item => watched item
  | None => false
  end.

Definition clearWatchlist (now : string) (state : WatchlistState) : WatchlistState :=
  watchlistReducer now state CLEAR_WATCHLIST.

(** The identity of a saved item for [ADD_ITEM]: its id and kind. *)
Definition entry_key (item : WatchlistItem) : Z * media_kind :=
  (wi_id item, wi_media_type item).

Definition unique_entries (l : list WatchlistItem) : Prop :=
  NoDup (map entry_key l).

Record WatchlistStats := mkStats {
  stats_total : Z;
  stats_watched : Z;
  stats_unwatched : Z
}.

Definition getWatchlistStats (state : WatchlistState) : WatchlistStats :=
  let total := Z.of_nat (length (items state)) in
  let w := Z.of_nat (length (filter watched (items state))) in
  mkStats total w (total - w).

(** The provider with its [localStorage] entry under [STORAGE_KEY].  The
    entry is held parsed: [JSON.stringify] of the items, read back by
    [JSON.parse], gives the same items. *)
Record Provider := mkProvider {
  pstate : WatchlistState;
  storage : option (list WatchlistItem)
}.

(** The save effect, run after a render in which [state.items] or
    [state.loading] changed: while not loading, the items are written. *)
Definition save_effect (p : Provider) : Provider :=
  if loading (pstate p) then p
  else mkProvider (pstate p) (Some (items (pstate p))).

Definition provider_dispatch (now : string) (p : Provider) (a : WatchlistAction)
    : Provider :=
  save_effect (mkProvider (watchlistReducer now (pstate p) a) (storage p)).

(** The load effect on mount; [stored] is [None] when the entry is absent,
    empty or not valid JSON (all three dispatch [SET_LOADING false]). *)
Definition mount_action (stored : option (list WatchlistItem)) : WatchlistAction :=
  match stored with
  | Some l => LOAD_WATCHLIST l
  | None => SET_LOADING false
  end.

Definition mount (now : string) (stored : option (list WatchlistItem)) : Provider :=
  provider_dispatch now (mkProvider (mkState [] true) stored) (mount_action stored).

(** What a user can do through the context's functions. *)
Inductive user_op :=
| OpAdd (item : NewItem)
| OpRemove (i : Z)
| OpToggle (i : Z)
| OpClear.

Definition run_op (now : string) (p : Provider) (op : user_op) : Provider :=
  match op with
  | OpAdd item => provider_dispatch now p (ADD_ITEM (watchlist_item_of now item))
  | OpRemove i => provider_dispatch now p (REMOVE_ITEM i)
  | OpToggle i =>
    match find_item i (items (pstate p)) with
    | Some item => provider_dispatch now p (TOGGLE_WATCHED i (negb (watched item)))
    | None => p
    end
  | OpClear => provider_dispatch now p CLEAR_WATCHLIST
  end.

(** A session: operations with the time each one happens. *)
Definition run_session (p : Provider) (ops : list (string * user_op)) : Provider :=
  fold_left (fun p e => run_op (fst e) p (snd e)) ops p.

(** ** The watchlist buttons ([WatchlistButtons.tsx]) *)

Record WatchlistButtonsProps := mkProps {
  p_id : Z;
  p_title : string;
  p_name : option string;
  p_poster_path : option string;
  p_release_date : option string;
  p_first_air_date : option string;
  p_vote_average : Q;
  p_overview : string;
  p_media_type : media_kind
}.

(** [title || name || '']. *)
Definition title_or_name (title : string) (name : option string) : string :=
  match title with
  | EmptyString => match name with Some n => n | None => "" end
  | _ => title
  end.

(** The object passed to [addToWatchlist] by both buttons. *)
Definition props_item (p : WatchlistButtonsProps) : NewItem :=
  mkNewItem (p_id p) (title_or_name (p_title p) (p_name p)) (p_name p)
            (p_poster_path p) (p_release_date p) (p_first_air_date p)
            (p_vote_average p) (p_overview p) (p_media_type p) None.

(** [handleToggleWatchlist] of [WatchlistButtonCompact]. *)
Definition handleToggleWatchlist (now : string) (p : WatchlistButtonsProps)
    (state : WatchlistState) : WatchlistState :=
  if isInWatchlist (p_id p) state then removeFromWatchlist now (p_id p) state
  else addToWatchlist now (props_item p) state.

(** ** TMDB items ([convertTMDBToEnhanced], [movieApi.ts]) *)

(** The TMDB fields read by [convertTMDBToEnhanced]; [tmdb_title] is
    [None] when the key [title] is absent (a TV show). *)
Record tmdb_item := mkTmdbItem {
  tmdb_id : Z;
  tmdb_title : option string;
  tmdb_name : option string;
  tmdb_release_date : option string;
  tmdb_first_air_date : option string;
  tmdb_vote_average : option Q;
  tmdb_vote_count : option Q;
  tmdb_genre_ids : option (list N);
  tmdb_popularity : option Q
}.

(** The fields of [EnhancedMovie] set by [convertTMDBToEnhanced] that are
    not copied through unchanged. *)
Record enhanced_movie := mkEnhanced {
  em_id : Z;
  em_title : option string;
  em_release_date : option string;
  em_vote_average : option Q;
  em_genre_ids : list N;
  em_popularity : option Q;
  em_ratings : ratings;
  em_tmdb_votes : Q;
  em_aggregatedScore : Q;
  em_from_omdb : bool            (* dataSource = 'tmdb+omdb' *)
}.

Definition convertTMDBToEnhanced (it : tmdb_item) : enhanced_movie :=
  let isMovie := match tmdb_title it with Some _ => true | None => false end in
  mkEnhanced (tmdb_id it)
    (if isMovie then tmdb_title it else tmdb_name it)
    (if isMovie then tmdb_release_date it else tmdb_first_air_date it)
    (tmdb_vote_average it)
    (match tmdb_genre_ids it with Some g => g | None => [] end)
    (tmdb_popularity it)
    (mkRatings (Some (or0 (tmdb_vote_average it))) None None None)
    (or0 (tmdb_vote_count it))
    (or0 (tmdb_vote_average it))
    false.

(** ** The recommendations API route ([pages/api/recommendations.ts]) *)

(** A TMDB list result as read by [getCandidateMovies]; [tr_release_year]
    is the parse of [release_date], as for [movie]. *)
Record tmdb_result := mkTmdbResult {
  tr_id : Z;
  tr_vote_average : option Q;
  tr_genre_ids : option (list N);
  tr_popularity : option Q;
  tr_release_year : option Z;
  tr_original_language : option string
}.

(** The candidate object built for a result: no kind, actors or
    director. *)
Definition candidate_of (r : tmdb_result) : movie :=
  mkMovie (tr_id r) None (tr_vote_average r)
          (match tr_genre_ids r with Some g => g | None => [] end)
          (tr_popularity r) (tr_release_year r) (tr_original_language r)
          None None.

(** The outcome of one [fetch] and its [json()]: it throws, the response
    is not ok, or the body's [results] (missing or present). *)
Inductive fetch_result :=
| FetchThrows
| FetchNotOk
| FetchOk (results : option (list tmdb_result)).

Definition fetch_throws (f : fetch_result) : bool :=
  match f with FetchThrows => true | _ => false end.

(** What a fetch pushes: [data.results || []] when ok, nothing otherwise. *)
Definition fetched_results (f : fetch_result) : list tmdb_result :=
  match f with FetchOk (Some rs) => rs | _ => [] end.

(** The [reduce] that removes duplicate ids, keeping the first. *)
Definition uniqueCandidates (candidates : list tmdb_result) : list movie :=
  fold_left (fun acc r =>
               if existsb (fun m => (id m =? tr_id r)%Z) acc then acc
               else (acc ++ [candidate_of r])%list)
            candidates [].

(** [getCandidateMovies]: a throw from one of the three list fetches
    lands in the outer [catch] and gives [[]]; a throw from a "similar"
    fetch is caught for that item alone.  [similar i] is the fetch for the
    saved item with id [i]. *)
Definition getCandidateMovies (trendingR popularR topRatedR : fetch_result)
    (similar : Z -> fetch_result) (watchlistMovies : list movie) : list movie :=
  if fetch_throws trendingR || fetch_throws popularR || fetch_throws topRatedR
  then []
  else
    uniqueCandidates
      (fetched_results trendingR ++ fetched_results popularR ++
       fetched_results topRatedR ++
       flat_map (fun m => fetched_results (similar (id m)))
                (firstn 5 watchlistMovies))%list.

Record CategoryStats := mkCategoryStats {
  n_because_you_watched : nat;
  n_genre_match : nat;
  n_highly_rated : nat;
  n_trending : nat;
  n_similar_taste : nat
}.

Definition bump_category (s : CategoryStats) (c : category) : CategoryStats :=
  match c with
  | because_you_watched =>
    mkCategoryStats (S (n_because_you_watched s)) (n_genre_match s)
                    (n_highly_rated s) (n_trending s) (n_similar_taste s)
  | genre_match =>
    mkCategoryStats (n_because_you_watched s) (S (n_genre_match s))
                    (n_highly_rated s) (n_trending s) (n_similar_taste s)
  | highly_rated =>
    mkCategoryStats (n_because_you_watched s) (n_genre_match s)
                    (S (n_highly_rated s)) (n_trending s) (n_similar_taste s)
  | trending =>
    mkCategoryStats (n_because_you_watched s) (n_genre_match s)
                    (n_highly_rated s) (S (n_trending s)) (n_similar_taste s)
  | similar_taste =>
    mkCategoryStats (n_because_you_watched s) (n_genre_match s)
                    (n_highly_rated s) (n_trending s) (S (n_similar_taste s))
  end.

Definition getCategoryStats (recs : list Recommendation) : CategoryStats :=
  fold_left (fun s rec => bump_category s (rec_category rec)) recs
            (mkCategoryStats 0 0 0 0 0).

Definition category_name (c : category) : string :=
  match c with
  | because_you_watched => "because_you_watched"
  | genre_match => "genre_match"
  | highly_rated => "highly_rated"
  | trending => "trending"
  | similar_taste => "similar_taste"
  end.

(** [stats[c]]: the counter of a category. *)
Definition stat_of (s : CategoryStats) (c : category) : nat :=
  match c with
  | because_you_watched => n_because_you_watched s
  | genre_match => n_genre_match s
  | highly_rated => n_highly_rated s
  | trending => n_trending s
  | similar_taste => n_similar_taste s
  end.

(** [parseInt(s) || d]: [None] is NaN; [0] is falsy. *)
Definition parse_or (d : Z) (o : option Z) : Z :=
  match o with
  | Some z => if (z =? 0)%Z then d else z
  | None => d
  end.

(** [arr.slice(start, end)] for integer arguments. *)
Definition js_rel (len k : Z) : Z :=
  if (k <? 0)%Z then Z.max (len + k) 0 else Z.min k len.

Definition js_slice {A} (l : list A) (s e : Z) : list A :=
  let len := Z.of_nat (length l) in
  let from := js_rel len s in
  let to := js_rel len e in
  firstn (Z.to_nat (to - from)) (skipn (Z.to_nat from) l).

(** The saved items: the details of the first 50 ids, dropping the ids
    whose [getMovieDetails] throws ([None]). *)
Definition validWatchlistMovies (details : Z -> option movie) (watchlistIds : list Z)
    : list movie :=
  flat_map (fun i => match details i with Some m => [m] | None => [] end)
           (firstn 50 watchlistIds).

Definition allRecommendations (current_year : Z) (details : Z -> option movie)
    (watchlistIds : list Z) (trendingR popularR topRatedR : fetch_result)
    (similar : Z -> fetch_result) (limitNum : Z) : list Recommendation :=
  let wl := validWatchlistMovies details watchlistIds in
  generateRecommendations (new_engine current_year wl)
    (getCandidateMovies trendingR popularR topRatedR similar wl) (limitNum * 3).

Definition filterByCategory (cat : string) (recs : list Recommendation)
    : list Recommendation :=
  if String.eqb cat "all" then recs
  else filter (fun rec => String.eqb (category_name (rec_category rec)) cat) recs.

Record RecommendationsResponse := mkResponse {
  resp_recommendations : list Recommendation;
  resp_page : Z;
  resp_limit : Z;
  resp_total : nat;
  resp_totalPages : Z;
  resp_preferences : option UserPreferences;
  resp_categories : CategoryStats;
  resp_watchlistSize : nat
}.

(** The body of the [try] block of [handler] for a GET request.  The query
    arrives parsed: [watchlistIds] is the id list, [category_q] the
    category ([None] when absent), [limit_q] and [page_q] the [parseInt]
    results ([None] for NaN or absent). *)
Definition recommendationsResponse (current_year : Z) (watchlistIds : list Z)
    (category_q : option string) (limit_q page_q : option Z)
    (details : Z -> option movie) (trendingR popularR topRatedR : fetch_result)
    (similar : Z -> fetch_result) : RecommendationsResponse :=
  let cat := match category_q with Some c => c | None => "all" end in
  let limitNum := parse_or 20 limit_q in
  let pageNum := parse_or 1 page_q in
  let wl := validWatchlistMovies details watchlistIds in
  let allRecs := allRecommendations current_year details watchlistIds
                   trendingR popularR topRatedR similar limitNum in
  let filtered := filterByCategory cat allRecs in
  let startIndex := ((pageNum - 1) * limitNum)%Z in
  let endIndex := (startIndex + limitNum)%Z in
  mkResponse (js_slice filtered startIndex endIndex) pageNum limitNum
             (length filtered)
             (Qceiling (nat_Q (length filtered) / inject_Z limitNum))
             (preferences (new_engine current_year wl))
             (getCategoryStats allRecs) (length wl).

Inductive api_response :=
| MethodNotAllowed
| RecommendationsOk (body : RecommendationsResponse).

Definition handler (current_year : Z) (method : string) (watchlistIds : list Z)
    (category_q : option string) (limit_q page_q : option Z)
    (details : Z -> option movie) (trendingR popularR topRatedR : fetch_result)
    (similar : Z -> fetch_result) : api_response :=
  if negb (String.eqb method "GET") then MethodNotAllowed
  else RecommendationsOk
         (recommendationsResponse current_year watchlistIds category_q
            limit_q page_q details trendingR popularR topRatedR similar).

(** ** The two parts of [generateReasons] *)

(** [matchingGenres]: the favourite genres found for the movie's ids. *)
Definition matching_genres (p : UserPreferences) (mv : movie) : list genre_pref :=
  flat_map (fun g => match find_genre p g with Some gp => [gp] | None => [] end)
           (genre_ids mv).

Definition genre_reasons (p : UserPreferences) (mv : movie) : list RecommendationReason :=
  match sort_desc gp_weight (matching_genres p mv) with
  | topGenre :: _ =>
    [mkReason r_genre ("You enjoy " ++ gp_name topGenre ++ " movies")
              (gp_weight topGenre)]
  | [] => []
  end.

Definition rating_reasons (p : UserPreferences) (mv : movie) : list RecommendationReason :=
  match vote_average mv with
  | Some v =>
    if truthy v && Qle_bool (rating_min p) v
    then [mkReason r_rating ("Highly rated (" ++ to_fixed1 v ++ "/10)")
                   (Qmin (v / 10) 1)]
    else []
  | None => []
  end.

(** A request scenario: the saved item [saved_action] under id 1, a
    trending list holding the TMDB result of [cand_action], and every other
    fetch failing. *)
Definition example_details (i : Z) : option movie :=
  if (i =? 1)%Z then Some saved_action else None.

Definition example_trending : fetch_result :=
  FetchOk (Some [mkTmdbResult 2 (Some 8.5) (Some [28%N]) (Some 600) (Some 2021%Z) None]).

(** * Proofs *)

(** ** Rating aggregation *)

Lemma js_round_comp (x y : Q) : x == y -> js_round x = js_round y.
Proof.
  intros H. unfold js_round. apply Qfloor_comp. rewrite H. reflexivity.
Qed.

Lemma push_if_positive_present (o : option Q) (f : Q -> Q) (w : Q) :
  push_if_positive o f w = if present o then [(f (or0 o), w)] else [].
Proof. destruct o as [s|]; simpl; [destruct (Qltb 0 s)|]; reflexivity. Qed.

Lemma round_tenth_comp (x y : Q) :
  x == y -> inject_Z (js_round x) / 10 == inject_Z (js_round y) / 10.
Proof. intros H. rewrite (js_round_comp x y H). reflexivity. Qed.

Lemma js_round_Z (z : Z) : js_round (inject_Z z) = z.
Proof.
  unfold js_round, Qfloor, inject_Z, Qplus. simpl.
  symmetry. apply Z.div_unique with (r := 1%Z); lia.
Qed.

(** The code's score is the spec's weighted average, rounded to a tenth. *)
Lemma aggregated_score_spec (r : ratings) :
  calculateAggregatedScore r ==
  inject_Z (js_round (spec_weighted_average r * 10)) / 10.
Proof.
  unfold calculateAggregatedScore, aggregated_scores, spec_weighted_average,
    spec_total_weight, spec_weight.
  rewrite !push_if_positive_present.
  destruct (present (tmdb_score r)), (present (imdb_score r)),
    (present (rt_critics_score r)), (present (metacritic_score r));
  cbn [app fold_left fst snd]; try reflexivity;
  (match goal with |- context [Qeq_bool ?W 0] =>
     let E := fresh in assert (E : Qeq_bool W 0 = false) by reflexivity;
     rewrite E end);
  apply round_tenth_comp; field.
Qed.

Lemma weighted_average_single (r : ratings) (v : Q) :
  present_values r = [v] -> spec_weighted_average r == v.
Proof.
  unfold present_values, spec_weighted_average, spec_total_weight, spec_weight.
  destruct (present (tmdb_score r)), (present (imdb_score r)),
    (present (rt_critics_score r)), (present (metacritic_score r));
  cbn [app]; intros H; try discriminate H; injection H as <-;
  (match goal with |- context [Qeq_bool ?W 0] =>
     let E := fresh in assert (E : Qeq_bool W 0 = false) by reflexivity;
     rewrite E end); field.
Qed.



(** C3 (corrected).  When exactly one provider has a positive score [v]
    (on the 0-10 scale), the aggregated score is [v] rounded to one decimal
    place, not scaled down by the absent weights; it is [v] itself when [v]
    has at most one decimal. *)
Theorem single_provider_score_rounded (r : ratings) (v : Q)
    (Hone : present_values r = [v]) :
  calculateAggregatedScore r == inject_Z (js_round (v * 10)) / 10 /\
  (forall z : Z, v * 10 == inject_Z z -> calculateAggregatedScore r == v).
Proof.
  assert (Hr : calculateAggregatedScore r == inject_Z (js_round (v * 10)) / 10).
  { rewrite aggregated_score_spec. apply round_tenth_comp.
    rewrite (weighted_average_single r v Hone). reflexivity. }
  split; [exact Hr |].
  intros z Hz. rewrite Hr, (js_round_comp _ _ Hz), js_round_Z, <- Hz. field.
Qed.

Lemma single_provider_score_rounded_witness :
  present_values (mkRatings (Some 7.25) None None (Some 0)) = [7.25] /\
  calculateAggregatedScore (mkRatings (Some 7.25) None None (Some 0)) ==
  inject_Z (js_round (7.25 * 10)) / 10.
Proof.
  split; [reflexivity |].
  exact (proj1 (single_provider_score_rounded (mkRatings (Some 7.25) None None (Some 0)) 7.25 eq_refl)).
Defined.

(** C3 (counterexample).  A TMDB-only record with score 7.25 aggregates to
    7.3, not 7.25. *)
Lemma single_provider_score_not_unchanged :
  present_values (mkRatings (Some 7.25) None None None) = [7.25] /\
  calculateAggregatedScore (mkRatings (Some 7.25) None None None) == 7.3 /\
  ~ (calculateAggregatedScore (mkRatings (Some 7.25) None None None) == 7.25).
Proof.
  split; [reflexivity | split; [reflexivity |]].
  intros H. vm_compute in H. discriminate H.
Qed.

(** ** Order, sorting and slicing *)

Lemma Qltb_spec (a b : Q) : Qltb a b = true <-> a < b.
Proof.
  unfold Qltb. rewrite negb_true_iff. split.
  - intros H. apply Qnot_le_lt. intros Hle.
    apply Qle_bool_iff in Hle. congruence.
  - intros H. destruct (Qle_bool b a) eqn:E; [|reflexivity].
    apply Qle_bool_iff in E. exfalso. apply (Qlt_not_le a b H E).
Qed.

Lemma Qltb_false (a b : Q) : Qltb a b = false -> b <= a.
Proof.
  unfold Qltb. rewrite negb_false_iff. apply Qle_bool_iff.
Qed.

Section SortFacts.
Context {A : Type} (key : A -> Q).

Lemma insert_desc_perm (x : A) (l : list A) :
  Permutation (insert_desc key x l) (x :: l).
Proof.
  induction l as [|y l IH]; simpl; [reflexivity|].
  destruct (Qle_bool (key y) (key x)); [reflexivity|].
  rewrite IH. apply perm_swap.
Qed.

Lemma sort_desc_perm (l : list A) : Permutation (sort_desc key l) l.
Proof.
  induction l as [|x l IH]; simpl; [reflexivity|].
  rewrite insert_desc_perm. now apply perm_skip.
Qed.

Lemma insert_desc_hd (a x : A) (l : list A) :
  key x <= key a -> HdRel (desc key) a l -> HdRel (desc key) a (insert_desc key x l).
Proof.
  intros Hx Hl. destruct l as [|y l]; simpl.
  - constructor. exact Hx.
  - destruct (Qle_bool (key y) (key x)); constructor; [exact Hx|].
    inversion Hl; assumption.
Qed.

Lemma insert_desc_sorted (x : A) (l : list A) :
  Sorted (desc key) l -> Sorted (desc key) (insert_desc key x l).
Proof.
  induction l as [|y l IH]; simpl; intros Hs.
  - repeat constructor.
  - destruct (Qle_bool (key y) (key x)) eqn:E.
    + constructor; [exact Hs|]. constructor. apply Qle_bool_iff. exact E.
    + inversion Hs as [|? ? Hs' Hhd]; subst. constructor; [now apply IH|].
      apply insert_desc_hd; [|exact Hhd].
      apply Qlt_le_weak, Qnot_le_lt. intros Hle.
      apply Qle_bool_iff in Hle. congruence.
Qed.

Lemma sort_desc_sorted (l : list A) : Sorted (desc key) (sort_desc key l).
Proof.
  induction l as [|x l IH]; simpl; [constructor|].
  now apply insert_desc_sorted.
Qed.

Lemma desc_trans : Transitive (desc key).
Proof. intros a b c Hab Hbc. unfold desc in *. eapply Qle_trans; eauto. Qed.

Lemma sort_desc_strongly_sorted (l : list A) :
  StronglySorted (desc key) (sort_desc key l).
Proof. apply Sorted_StronglySorted; [exact desc_trans | apply sort_desc_sorted]. Qed.
End SortFacts.

Lemma firstn_sorted {A} (R : A -> A -> Prop) (k : nat) (l : list A) :
  Sorted R l -> Sorted R (firstn k l).
Proof.
  revert l. induction k as [|k IH]; intros l Hs; [constructor|].
  destruct l as [|x l]; simpl; [constructor|].
  inversion Hs as [|? ? Hs' Hhd]; subst. constructor; [now apply IH|].
  destruct l as [|y l]; destruct k; simpl; constructor.
  inversion Hhd. assumption.
Qed.

Lemma in_firstn_in {A} (k : nat) (l : list A) (x : A) :
  In x (firstn k l) -> In x l.
Proof.
  intros H. rewrite <- (firstn_skipn k l). apply in_or_app. now left.
Qed.

Lemma js_slice0_firstn {A} (l : list A) (n : Z) :
  exists k, js_slice0 l n = firstn k l.
Proof. unfold js_slice0. eexists. reflexivity. Qed.

Lemma js_slice0_in {A} (l : list A) (n : Z) (x : A) :
  In x (js_slice0 l n) -> In x l.
Proof. unfold js_slice0. apply in_firstn_in. Qed.

Lemma js_slice0_length {A} (l : list A) (n : Z) :
  (0 <= n)%Z -> (Z.of_nat (length (js_slice0 l n)) <= n)%Z.
Proof.
  intros Hn. unfold js_slice0. destruct (Z.ltb_spec n 0); [lia|].
  rewrite length_firstn. lia.
Qed.

Lemma js_slice0_all {A} (l : list A) (n : Z) :
  (Z.of_nat (length l) <= n)%Z -> js_slice0 l n = l.
Proof.
  intros Hn. unfold js_slice0. destruct (Z.ltb_spec n 0); [lia|].
  apply firstn_all2. lia.
Qed.

(** ** The ranker *)

Lemma analyzePreferences_nil (cy : Z) : analyzePreferences cy [] = None.
Proof. reflexivity. Qed.

Lemma analyzePreferences_some (cy : Z) (wl : list movie) (p : UserPreferences) :
  analyzePreferences cy wl = Some p -> wl <> [].
Proof. destruct wl; [discriminate | intros _; discriminate]. Qed.

Lemma in_scored_candidates (p : UserPreferences) (wl cands : list movie)
    (r : Recommendation) :
  In r (scored_candidates p wl cands) <->
  exists mv, In mv cands /\ in_watchlist wl mv = false /\
    0.3 < calculateRecommendationScore p mv /\
    r = mkRec mv (calculateRecommendationScore p mv) (generateReasons p mv)
              (determineCategory mv (generateReasons p mv)).
Proof.
  unfold scored_candidates. rewrite in_flat_map. split.
  - intros (mv & Hmv & Hr). exists mv.
    destruct (in_watchlist wl mv); [destruct Hr|].
    destruct (Qltb 0.3 (calculateRecommendationScore p mv)) eqn:E;
      [|destruct Hr].
    destruct Hr as [<-|[]]. apply Qltb_spec in E. auto.
  - intros (mv & Hmv & Hw & Hs & ->). exists mv. split; [exact Hmv|].
    rewrite Hw. apply Qltb_spec in Hs. rewrite Hs. now left.
Qed.

Lemma scored_candidates_length (p : UserPreferences) (wl cands : list movie) :
  (length (scored_candidates p wl cands) <= length cands)%nat.
Proof.
  induction cands as [|mv cands IH]; simpl; [lia|].
  destruct (in_watchlist wl mv); simpl; [lia|].
  destruct (Qltb 0.3 _); simpl; lia.
Qed.

Lemma in_watchlist_false (wl : list movie) (mv : movie) :
  in_watchlist wl mv = false <-> forall w, In w wl -> id w <> id mv.
Proof.
  unfold in_watchlist. split.
  - intros H w Hw Heq. apply Z.eqb_eq in Heq.
    assert (existsb (fun w => (id w =? id mv)%Z) wl = true)
      by (apply existsb_exists; eauto). congruence.
  - intros H. destruct (existsb _ wl) eqn:E; [|reflexivity].
    apply existsb_exists in E. destruct E as (w & Hw & Heq).
    apply Z.eqb_eq in Heq. exfalso. exact (H w Hw Heq).
Qed.

Lemma generateRecommendations_personalized (cy : Z) (wl cands : list movie)
    (limit : Z) (p : UserPreferences) :
  analyzePreferences cy wl = Some p ->
  generateRecommendations (new_engine cy wl) cands limit =
  js_slice0 (sort_desc rec_score (scored_candidates p wl cands)) limit.
Proof.
  intros Hp. unfold generateRecommendations, new_engine. simpl.
  rewrite Hp. destruct wl; [discriminate | reflexivity].
Qed.

Lemma generateRecommendations_cold (cy : Z) (cands : list movie) (limit : Z) :
  generateRecommendations (new_engine cy []) cands limit =
  generateTrendingRecommendations cands limit.
Proof. reflexivity. Qed.

Lemma trending_pool_filter (cands : list movie) :
  trending_pool cands = filter (fun mv => Qltb 100 (or0 (popularity mv))) cands.
Proof.
  unfold trending_pool. apply filter_ext. intros mv.
  destruct (popularity mv) as [q|]; simpl; [|reflexivity].
  destruct (Qltb 100 q) eqn:E; [|apply andb_false_r].
  rewrite andb_true_r. unfold truthy.
  destruct (Qeq_bool q 0) eqn:Z0; [|reflexivity].
  apply Qeq_bool_iff in Z0. apply Qltb_spec in E. rewrite Z0 in E.
  discriminate E.
Qed.

Lemma in_trending (cands : list movie) (limit : Z) (r : Recommendation) :
  In r (generateTrendingRecommendations cands limit) ->
  exists mv, In mv cands /\ 100 < or0 (popularity mv) /\ r = trending_rec mv.
Proof.
  unfold generateTrendingRecommendations. rewrite in_map_iff.
  intros (mv & <- & Hin). exists mv.
  apply js_slice0_in in Hin.
  apply (Permutation_in _ (sort_desc_perm _ _)) in Hin.
  rewrite trending_pool_filter, filter_In in Hin.
  destruct Hin as [Hin Hp]. apply Qltb_spec in Hp. auto.
Qed.

(** C1 (corrected).  In personalised mode every returned recommendation has
    a score above 0.3; in cold-start mode there is no score cutoff: every
    returned item has popularity above 100 and score
    [min(popularity / 1000, 1)], which is above 0.1. *)
Theorem recommendation_cutoff_by_mode (cy : Z) (wl cands : list movie)
    (limit : Z) (r : Recommendation)
    (Hin : In r (generateRecommendations (new_engine cy wl) cands limit)) :
  (wl <> [] -> 0.3 < rec_score r) /\
  (wl = [] -> 100 < or0 (popularity (rec_movie r)) /\
              rec_score r = Qmin (or0 (popularity (rec_movie r)) / 1000) 1 /\
              0.1 < rec_score r).
Proof.
  split.
  - intros Hwl. destruct (analyzePreferences cy wl) as [p|] eqn:Hp.
    + rewrite (generateRecommendations_personalized cy wl cands limit p Hp) in Hin.
      apply js_slice0_in in Hin.
      apply (Permutation_in _ (sort_desc_perm _ _)) in Hin.
      apply in_scored_candidates in Hin.
      destruct Hin as (mv & _ & _ & Hs & ->). exact Hs.
    + destruct wl; [contradiction | discriminate].
  - intros ->. rewrite generateRecommendations_cold in Hin.
    apply in_trending in Hin. destruct Hin as (mv & _ & Hpop & ->).
    simpl. split; [exact Hpop|]. split; [reflexivity|].
    apply Q.min_glb_lt; [|reflexivity].
    apply Qlt_shift_div_l; [reflexivity|].
    apply Qle_lt_trans with (y := 100); [discriminate | exact Hpop].
Qed.

Lemma recommendation_cutoff_by_mode_witness :
  In (hd (trending_rec cand_action)
         (generateRecommendations (new_engine 2026 [saved_action]) [cand_action] 20))
     (generateRecommendations (new_engine 2026 [saved_action]) [cand_action] 20) /\
  0.3 < rec_score (hd (trending_rec cand_action)
         (generateRecommendations (new_engine 2026 [saved_action]) [cand_action] 20)).
Proof.
  assert (Hin : In (hd (trending_rec cand_action)
         (generateRecommendations (new_engine 2026 [saved_action]) [cand_action] 20))
     (generateRecommendations (new_engine 2026 [saved_action]) [cand_action] 20))
    by (vm_compute; left; reflexivity).
  split; [exact Hin|].
  apply (proj1 (recommendation_cutoff_by_mode 2026 [saved_action] [cand_action] 20 _ Hin)).
  discriminate.
Defined.

(** C1 (counterexample).  With an empty saved list a candidate with
    popularity 200 is returned with score 0.2, below the 0.3 cutoff. *)
Lemma cold_start_returns_score_below_cutoff :
  exists r, In r (generateRecommendations (new_engine 2026 []) [cand_pop200] 20) /\
            rec_score r < 0.3.
Proof.
  exists (trending_rec cand_pop200). split.
  - vm_compute. left. reflexivity.
  - vm_compute. reflexivity.
Qed.

(** C4 (corrected).  In personalised mode the duplicate check compares ids
    only: every returned recommendation is a candidate whose id differs
    from the id of every saved item (so none matches a saved item's
    (id, kind) pair), and, when [limit] is at least the number of
    candidates, every candidate whose id matches no saved id and whose
    score exceeds 0.3 is returned. *)
Theorem personalized_dedup_by_id (cy : Z) (wl cands : list movie) (limit : Z)
    (p : UserPreferences) (Hp : analyzePreferences cy wl = Some p) :
  (forall r, In r (generateRecommendations (new_engine cy wl) cands limit) ->
     In (rec_movie r) cands /\
     (forall w, In w wl -> id w <> id (rec_movie r)) /\
     rec_score r = calculateRecommendationScore p (rec_movie r)) /\
  ((Z.of_nat (length cands) <= limit)%Z ->
   forall c, In c cands -> (forall w, In w wl -> id w <> id c) ->
   0.3 < calculateRecommendationScore p c ->
   In c (map rec_movie (generateRecommendations (new_engine cy wl) cands limit))).
Proof.
  rewrite (generateRecommendations_personalized cy wl cands limit p Hp).
  split.
  - intros r Hin. apply js_slice0_in in Hin.
    apply (Permutation_in _ (sort_desc_perm _ _)) in Hin.
    apply in_scored_candidates in Hin.
    destruct Hin as (mv & Hmv & Hw & _ & ->). simpl.
    split; [exact Hmv|]. split; [|reflexivity].
    apply in_watchlist_false. exact Hw.
  - intros Hlim c Hc Hw Hs.
    rewrite js_slice0_all.
    + apply in_map_iff.
      exists (mkRec c (calculateRecommendationScore p c) (generateReasons p c)
                    (determineCategory c (generateReasons p c))).
      split; [reflexivity|].
      apply (Permutation_in _ (Permutation_sym (sort_desc_perm _ _))).
      apply in_scored_candidates. exists c. split; [exact Hc|].
      split; [apply in_watchlist_false; exact Hw|]. auto.
    + rewrite (Permutation_length (sort_desc_perm _ _)).
      pose proof (scored_candidates_length p wl cands). lia.
Qed.

Lemma personalized_dedup_by_id_witness :
  exists p, analyzePreferences 2026 [saved_action] = Some p /\
  In cand_action (map rec_movie
    (generateRecommendations (new_engine 2026 [saved_action]) [cand_action] 20)).
Proof.
  eexists. split; [reflexivity|].
  apply (proj2 (personalized_dedup_by_id 2026 [saved_action] [cand_action] 20 _ eq_refl)).
  - simpl. lia.
  - left. reflexivity.
  - intros w [<-|[]]. discriminate.
  - vm_compute. reflexivity.
Defined.

(** C4 (counterexample).  A saved film with id 5 and a TV-show candidate
    with id 5: their (id, kind) pairs differ and the candidate scores above
    0.3, yet it is skipped and the output is empty. *)
Lemma dedup_ignores_kind :
  (forall w, In w [saved_movie5] ->
     ~ (id w = id cand_tv5 /\ media_type w = media_type cand_tv5)) /\
  (exists p, analyzePreferences 2026 [saved_movie5] = Some p /\
             0.3 < calculateRecommendationScore p cand_tv5) /\
  generateRecommendations (new_engine 2026 [saved_movie5]) [cand_tv5] 20 = [].
Proof.
  split; [|split].
  - intros w [<-|[]] [_ Hk]. discriminate Hk.
  - eexists. split; [reflexivity | vm_compute; reflexivity].
  - vm_compute. reflexivity.
Qed.

(** C5 (corrected).  [analyzePreferences []] is null, and with an empty
    saved list the output is [slice(0, limit)] of the candidates with
    popularity above 100 sorted by descending popularity (so at most
    [limit] items when [limit >= 0]), each tagged [trending] with a single
    reason of confidence 0.8. *)
Theorem cold_start_trending (cy : Z) (cands : list movie) (limit : Z) :
  analyzePreferences cy [] = None /\
  (exists sorted,
     Permutation sorted
       (filter (fun mv => Qltb 100 (or0 (popularity mv))) cands) /\
     Sorted (fun a b => or0 (popularity b) <= or0 (popularity a)) sorted /\
     map rec_movie (generateRecommendations (new_engine cy []) cands limit) =
     js_slice0 sorted limit) /\
  (forall r, In r (generateRecommendations (new_engine cy []) cands limit) ->
     rec_category r = trending /\
     reasons r = [mkReason r_trending "Currently trending" 0.8]) /\
  ((0 <= limit)%Z ->
   (Z.of_nat (length (generateRecommendations (new_engine cy []) cands limit))
      <= limit)%Z).
Proof.
  rewrite generateRecommendations_cold.
  split; [reflexivity|]. split; [|split].
  - exists (sort_desc (fun mv => or0 (popularity mv)) (trending_pool cands)).
    split; [rewrite sort_desc_perm, trending_pool_filter; reflexivity|].
    split; [apply (sort_desc_sorted (fun mv => or0 (popularity mv)))|].
    unfold generateTrendingRecommendations. rewrite map_map. apply map_id.
  - unfold generateTrendingRecommendations. intros r Hin.
    apply in_map_iff in Hin. destruct Hin as (mv & <- & _). auto.
  - intros Hl. unfold generateTrendingRecommendations. rewrite length_map.
    apply js_slice0_length. exact Hl.
Qed.

Lemma cold_start_trending_witness :
  (Z.of_nat (length (generateRecommendations (new_engine 2026 [])
                       [cand_pop200; cand_pop300] 1)) <= 1)%Z.
Proof.
  apply (proj2 (proj2 (proj2 (cold_start_trending 2026 [cand_pop200; cand_pop300] 1)))).
  lia.
Defined.

(** C5 (counterexample).  With [limit = -1] (the API passes [limit * 3]
    for a user-supplied [limit]) two popular candidates give one result:
    more than [limit] items. *)
Lemma cold_start_negative_limit :
  length (generateRecommendations (new_engine 2026 [])
            [cand_pop200; cand_pop300] (-1)) = 1%nat /\
  ~ (Z.of_nat (length (generateRecommendations (new_engine 2026 [])
                 [cand_pop200; cand_pop300] (-1))) <= -1)%Z.
Proof.
  assert (H : length (generateRecommendations (new_engine 2026 [])
                [cand_pop200; cand_pop300] (-1)) = 1%nat)
    by (vm_compute; reflexivity).
  split; [exact H|]. rewrite H. simpl. lia.
Qed.

(** ** Score bounds *)

Lemma Qdiv_nonneg (x y : Q) : 0 <= x -> 0 <= y -> 0 <= x / y.
Proof.
  intros Hx Hy. unfold Qdiv. apply Qmult_le_0_compat; [exact Hx|].
  apply Qinv_le_0_compat. exact Hy.
Qed.

Lemma nat_Q_nonneg (n : nat) : 0 <= nat_Q n.
Proof.
  unfold nat_Q, Qle. simpl. lia.
Qed.

Lemma Qplus_nonneg (x y : Q) : 0 <= x -> 0 <= y -> 0 <= x + y.
Proof. intros Hx Hy. exact (Qplus_le_compat 0 x 0 y Hx Hy). Qed.

Lemma Qmin_nonneg (x y : Q) : 0 <= x -> 0 <= y -> 0 <= Qmin x y.
Proof. intros Hx Hy. apply Q.min_glb; assumption. Qed.

Lemma fold_sum_nonneg {A} (f : A -> Q) (l : list A) (a : Q) :
  0 <= a -> (forall x, In x l -> 0 <= f x) ->
  0 <= fold_left (fun s x => s + f x) l a.
Proof.
  revert a. induction l as [|x l IH]; simpl; intros a Ha Hf; [exact Ha|].
  apply IH; [|intros y Hy; apply Hf; now right].
  apply Qplus_nonneg; [exact Ha | apply Hf; now left].
Qed.

Definition totals_nonneg (m : list (N * genre_stat)) : Prop :=
  forall e, In e m -> 0 <= gs_totalRating (snd e).

Lemma genre_add_totals_nonneg (g : N) (r : Q) (m : list (N * genre_stat)) :
  0 <= r -> totals_nonneg m -> totals_nonneg (genre_add g r m).
Proof.
  intros Hr. induction m as [|[k st] m IH]; simpl; intros Hm.
  - intros e [<-|[]]. simpl. rewrite Qplus_0_l. exact Hr.
  - assert (Hst : 0 <= gs_totalRating st) by (apply (Hm (k, st)); now left).
    assert (Hm' : totals_nonneg m) by (intros e He; apply Hm; now right).
    destruct (g =? k)%N; [|destruct (g <? k)%N].
    + intros e [<-|He]; [|now apply Hm']. simpl.
      apply Qplus_nonneg; assumption.
    + intros e [<-|He]; [simpl; rewrite Qplus_0_l; exact Hr | now apply Hm].
    + intros e [<-|He]; [exact Hst | now apply IH].
Qed.

Lemma genreCount_totals_nonneg (wl : list movie) :
  (forall w, In w wl -> 0 <= or0 (vote_average w)) ->
  totals_nonneg (genreCount wl).
Proof.
  unfold genreCount. intros Hwl.
  assert (H : forall m, totals_nonneg m ->
            totals_nonneg (fold_left genre_count_movie wl m)).
  { induction wl as [|w wl IH]; simpl; intros m Hm; [exact Hm|].
    apply IH; [intros w' Hw'; apply Hwl; now right|].
    unfold genre_count_movie.
    assert (Hr : 0 <= or0 (vote_average w)) by (apply Hwl; now left).
    clear IH. revert m Hm. induction (genre_ids w) as [|g gs IHg]; simpl;
      intros m Hm; [exact Hm|].
    apply IHg. apply genre_add_totals_nonneg; assumption. }
  apply H. intros e [].
Qed.

Lemma favoriteGenres_weights_nonneg (wl : list movie) :
  (forall w, In w wl -> 0 <= or0 (vote_average w)) ->
  forall gp, In gp (favoriteGenres wl) -> 0 <= gp_weight gp.
Proof.
  intros Hwl gp Hgp. unfold favoriteGenres in Hgp.
  apply in_firstn_in in Hgp.
  apply (Permutation_in _ (sort_desc_perm _ _)) in Hgp.
  apply in_map_iff in Hgp. destruct Hgp as (e & <- & He). simpl.
  apply Qmult_le_0_compat.
  - apply Qdiv_nonneg; apply nat_Q_nonneg.
  - apply Qdiv_nonneg; [|discriminate].
    apply Qdiv_nonneg; [|apply nat_Q_nonneg].
    exact (genreCount_totals_nonneg wl Hwl e He).
Qed.

Lemma genre_term_nonneg (p : UserPreferences) (mv : movie) :
  (forall gp, In gp (favorite_genres p) -> 0 <= gp_weight gp) ->
  0 <= genre_term p mv.
Proof.
  intros Hw. unfold genre_term. destruct (genre_ids mv) as [|g gs]; [apply Qle_refl|].
  apply Qmult_le_0_compat; [|discriminate].
  apply Qdiv_nonneg; [|apply nat_Q_nonneg].
  apply (fold_sum_nonneg (fun g => match find_genre p g with
                                   | Some gp => gp_weight gp | None => 0 end));
    [apply Qle_refl|].
  intros x _. destruct (find_genre p x) as [gp|] eqn:E; [|apply Qle_refl].
  apply Hw. exact (proj1 (find_some _ _ E)).
Qed.

Lemma rating_term_nonneg (p : UserPreferences) (mv : movie) :
  0 <= rating_min p -> 0 <= rating_term p mv.
Proof.
  intros Hmin. unfold rating_term. destruct (vote_average mv) as [v|]; [|apply Qle_refl].
  destruct (truthy v && Qle_bool (rating_min p) v && Qle_bool v (rating_max p)) eqn:E;
    [|apply Qle_refl].
  apply andb_true_iff in E as [E _]. apply andb_true_iff in E as [_ E].
  apply Qle_bool_iff in E.
  apply Qmult_le_0_compat; [|discriminate].
  apply Qmin_nonneg; [|discriminate].
  apply Qdiv_nonneg; [eapply Qle_trans; eauto | discriminate].
Qed.

Lemma year_term_nonneg (p : UserPreferences) (mv : movie) : 0 <= year_term p mv.
Proof.
  unfold year_term. destruct (release_year mv); [|apply Qle_refl].
  destruct (_ && _); [discriminate | apply Qle_refl].
Qed.

Lemma popularity_term_nonneg (mv : movie) :
  0 <= or0 (popularity mv) -> 0 <= popularity_term mv.
Proof.
  unfold popularity_term. destruct (popularity mv) as [q|]; simpl; intros Hq;
    [|apply Qle_refl].
  destruct (truthy q); [|apply Qle_refl].
  apply Qmult_le_0_compat; [|discriminate].
  apply Qmin_nonneg; [apply Qdiv_nonneg; [exact Hq | discriminate] | discriminate].
Qed.

Lemma people_term_nonneg (p : UserPreferences) (mv : movie) : 0 <= people_term p mv.
Proof.
  unfold people_term. apply Qmult_le_0_compat; [|discriminate].
  apply Qmin_nonneg; [|discriminate].
  apply Qplus_nonneg; [apply Qplus_nonneg; [apply Qle_refl|]|].
  - unfold actor_score. destruct (truthy_str (actors mv)), (actorPreferences p);
      try apply Qle_refl.
    apply Qmult_le_0_compat; [|discriminate].
    apply Qdiv_nonneg; apply nat_Q_nonneg.
  - unfold director_score. destruct (truthy_str (director mv)), (directorPreferences p);
      try apply Qle_refl.
    destruct (existsb _ _); [discriminate | apply Qle_refl].
Qed.

Lemma maxScore_one : maxScore == 1.
Proof. reflexivity. Qed.

Lemma rating_min_nonneg (cy : Z) (wl : list movie) (p : UserPreferences) :
  analyzePreferences cy wl = Some p -> 0 <= rating_min p.
Proof.
  destruct wl; [discriminate|]. intros H. injection H as <-. simpl.
  apply Q.le_max_r.
Qed.

Lemma favorite_genres_of (cy : Z) (wl : list movie) (p : UserPreferences) :
  analyzePreferences cy wl = Some p -> favorite_genres p = favoriteGenres wl.
Proof. destruct wl; [discriminate|]. intros H. injection H as <-. reflexivity. Qed.

(** C6 (code bug).  The spec bounds every score to [0, 1], but
    [calculateRecommendationScore] computes [min(score / maxScore, 1)] and
    clamps only the upper end.  A candidate whose only data is a popularity
    of -1000 scores -0.1 under the profile of scenario 1, below 0. *)
Lemma negative_popularity_negative_score :
  exists p, analyzePreferences 2026 [saved_action] = Some p /\
  calculateRecommendationScore p cand_negative_pop == -1 # 10 /\
  calculateRecommendationScore p cand_negative_pop < 0.
Proof. eexists. split; [reflexivity | split; vm_compute; reflexivity]. Qed.

(** ** Fallbacks of [analyzePreferences] *)

Lemma positive_ratings_nil (wl : list movie) :
  (forall w, In w wl -> or0 (vote_average w) <= 0) -> positive_ratings wl = [].
Proof.
  unfold positive_ratings. intros H.
  induction wl as [|w wl IH]; simpl; [reflexivity|].
  destruct (Qltb 0 (or0 (vote_average w))) eqn:E.
  - apply Qltb_spec in E. exfalso.
    apply (Qlt_not_le _ _ E). apply H. now left.
  - apply IH. intros w' Hw'. apply H. now right.
Qed.

Lemma years_of_nil (wl : list movie) :
  (forall w y, In w wl -> release_year w = Some y -> (y <= 1900)%Z) ->
  years_of wl = [].
Proof.
  unfold years_of. intros H.
  induction wl as [|w wl IH]; simpl; [reflexivity|].
  rewrite IH by (intros w' y Hw'; apply H; now right).
  destruct (release_year w) as [y|] eqn:E; [|reflexivity].
  destruct (Z.ltb_spec 1900 y); [|reflexivity].
  specialize (H w y (or_introl eq_refl) E). lia.
Qed.

(** C9.  When no saved item has a release year above 1900, [Math.min()]
    over the empty year subset is [Infinity], which is truthy, so the
    profile's minimum year is [Infinity] instead of the fallback
    [currentYear - 10], and the year sub-score of every candidate is 0. *)
Theorem year_min_infinity_without_years (cy : Z) (wl : list movie)
    (Hne : wl <> [])
    (Hyears : forall w y, In w wl -> release_year w = Some y -> (y <= 1900)%Z) :
  exists p, analyzePreferences cy wl = Some p /\
    year_min p = PosInf /\ forall mv, year_term p mv = 0.
Proof.
  destruct wl as [|w0 wl']; [contradiction|].
  eexists. split; [reflexivity|].
  assert (Hmin : minYear cy (w0 :: wl') = PosInf).
  { unfold minYear. rewrite (years_of_nil _ Hyears). reflexivity. }
  simpl. rewrite Hmin. split; [reflexivity|].
  intros mv. unfold year_term. simpl.
  destruct (release_year mv); reflexivity.
Qed.

Lemma year_min_infinity_without_years_witness :
  exists p, analyzePreferences 2026
      [mkMovie 7 None (Some 8) [18%N] None (Some 1895%Z) None None None] = Some p /\
    year_min p = PosInf.
Proof.
  destruct (year_min_infinity_without_years 2026
      [mkMovie 7 None (Some 8) [18%N] None (Some 1895%Z) None None None])
    as (p & Hp & Hy & _).
  - discriminate.
  - intros w y [<-|[]] E. simpl in E. injection E as <-. lia.
  - exists p. split; assumption.
Defined.

(** C10.  When every saved item's rating is missing, zero or negative, the
    profile exists, its average rating is the default 7 and its rating band
    is [5.5, 10]. *)
Theorem default_rating_band (cy : Z) (wl : list movie)
    (Hne : wl <> [])
    (Hratings : forall w, In w wl -> or0 (vote_average w) <= 0) :
  exists p, analyzePreferences cy wl = Some p /\
    averageRating p == 7 /\ rating_min p == 5.5 /\ rating_max p == 10.
Proof.
  destruct wl as [|w0 wl']; [contradiction|].
  eexists. split; [reflexivity|]. simpl.
  assert (Havg : avgRating (w0 :: wl') = 7).
  { unfold avgRating. rewrite (positive_ratings_nil _ Hratings). reflexivity. }
  rewrite Havg. split; [reflexivity | split; reflexivity].
Qed.

Lemma default_rating_band_witness :
  exists p, analyzePreferences 2026
      [mkMovie 8 None None [35%N] None (Some 2015%Z) None None None;
       mkMovie 9 None (Some 0) [] None None None None None] = Some p /\
    averageRating p == 7 /\ rating_min p == 5.5 /\ rating_max p == 10.
Proof.
  apply default_rating_band.
  - discriminate.
  - intros w [<-|[<-|[]]]; simpl; apply Qle_refl.
Defined.

(** ** The year band *)

Lemma Permutation_filter_length {A} (f : A -> bool) (l l' : list A) :
  Permutation l l' -> length (filter f l) = length (filter f l').
Proof.
  induction 1 as [|x l l' _ IH|x y l|l l' l'' _ IH1 _ IH2]; simpl.
  - reflexivity.
  - destruct (f x); simpl; congruence.
  - destruct (f x), (f y); reflexivity.
  - congruence.
Qed.

Lemma StronglySorted_app_rel {A} (R : A -> A -> Prop) (l1 l2 : list A) :
  StronglySorted R (l1 ++ l2) -> forall x z, In x l1 -> In z l2 -> R x z.
Proof.
  induction l1 as [|a l1 IH]; simpl; intros Hs x z Hx Hz; [destruct Hx|].
  inversion Hs as [|? ? Hs' Hall]; subst.
  destruct Hx as [<-|Hx].
  - rewrite Forall_forall in Hall. apply Hall. apply in_or_app. now right.
  - exact (IH Hs' x z Hx Hz).
Qed.

Lemma js_min_sorted (x : Z) (l : list Z) :
  StronglySorted (desc inject_Z) (x :: l) ->
  js_min (x :: l) = Fin (last (x :: l) 0%Z).
Proof.
  unfold js_min. simpl. revert x.
  induction l as [|y l IH]; intros x Hs; [reflexivity|].
  inversion Hs as [|? ? Hs' Hall]; subst.
  inversion Hall as [|? ? Hxy _]; subst. unfold desc in Hxy.
  rewrite <- Zle_Qle in Hxy. simpl. rewrite Z.min_r by exact Hxy.
  rewrite (IH y Hs'). reflexivity.
Qed.

Lemma years_of_gt (wl : list movie) (y : Z) : In y (years_of wl) -> (1900 < y)%Z.
Proof.
  unfold years_of. rewrite in_flat_map. intros (mv & _ & Hy).
  destruct (release_year mv) as [z|]; [|destruct Hy].
  destruct (Z.ltb_spec 1900 z); [|destruct Hy].
  destruct Hy as [<-|[]]. assumption.
Qed.

Lemma ceiling_bounds (n : nat) :
  (1 <= n)%nat ->
  (1 <= Qceiling (nat_Q n * 0.7))%Z /\ (Qceiling (nat_Q n * 0.7) <= Z.of_nat n)%Z.
Proof.
  intros Hn. split.
  - assert (H : (0 < Qceiling (nat_Q n * 0.7))%Z); [|lia].
    assert (Hlt : 0 < nat_Q n * 0.7).
    { unfold nat_Q, Qlt, Qmult. simpl. lia. }
    pose proof (Qle_ceiling (nat_Q n * 0.7)) as Hc.
    assert (Hz : inject_Z 0 < inject_Z (Qceiling (nat_Q n * 0.7)))
      by (eapply Qlt_le_trans; eauto).
    rewrite <- Zlt_Qlt in Hz. exact Hz.
  - rewrite <- (Qceiling_Z (Z.of_nat n)). apply Qceiling_resp_le.
    unfold nat_Q, Qle, Qmult. simpl. lia.
Qed.

Lemma filter_all_false {A} (f : A -> bool) (l : list A) :
  (forall x, In x l -> f x = false) -> filter f l = [].
Proof.
  induction l as [|x l IH]; simpl; intros H; [reflexivity|].
  rewrite (H x (or_introl eq_refl)). apply IH. intros z Hz. apply H. now right.
Qed.

Lemma filter_all_true {A} (f : A -> bool) (l : list A) :
  (forall x, In x l -> f x = true) -> filter f l = l.
Proof.
  induction l as [|x l IH]; simpl; intros H; [reflexivity|].
  rewrite (H x (or_introl eq_refl)), IH; [reflexivity|].
  intros z Hz. apply H. now right.
Qed.

(** In a list sorted by descending year, [a ++ y :: b], fewer than
    [length a + 1] entries are more recent than [y] and at least
    [length a + 1] are at least as recent. *)
Lemma sorted_split_counts (a b : list Z) (y : Z) :
  StronglySorted (desc inject_Z) (a ++ y :: b) ->
  (length (filter (fun x => y <? x)%Z (a ++ y :: b)) <= length a)%nat /\
  (S (length a) <= length (filter (fun x => y <=? x)%Z (a ++ y :: b)))%nat.
Proof.
  intros Hs.
  assert (Ha : forall x, In x a -> (y <= x)%Z).
  { intros x Hx. rewrite Zle_Qle.
    apply (StronglySorted_app_rel _ a (y :: b) Hs x y Hx (or_introl eq_refl)). }
  assert (Hb : forall z, In z b -> (z <= y)%Z).
  { intros z Hz.
    assert (Hs2 : StronglySorted (desc inject_Z) (y :: b)).
    { clear -Hs. induction a as [|x a IH]; [exact Hs|].
      inversion Hs; subst. now apply IH. }
    inversion Hs2 as [|? ? _ Hall]; subst. rewrite Forall_forall in Hall.
    rewrite Zle_Qle. apply (Hall z Hz). }
  rewrite !filter_app, !length_app. simpl.
  rewrite (proj2 (Z.ltb_ge y y) (Z.le_refl y)), Z.leb_refl.
  rewrite (filter_all_false (fun x => y <? x)%Z b)
    by (intros z Hz; apply Z.ltb_ge, Hb, Hz).
  rewrite (filter_all_true (fun x => y <=? x)%Z a)
    by (intros x Hx; apply Z.leb_le, Ha, Hx).
  pose proof (filter_length_le (fun x => y <? x)%Z a). simpl. lia.
Qed.

Lemma StronglySorted_app_l {A} (R : A -> A -> Prop) (l1 l2 : list A) :
  StronglySorted R (l1 ++ l2) -> StronglySorted R l1.
Proof.
  induction l1 as [|x l1 IH]; simpl; intros Hs; [constructor|].
  inversion Hs as [|? ? Hs' Hall]; subst. constructor; [now apply IH|].
  rewrite Forall_forall in *. intros z Hz. apply Hall. apply in_or_app. now left.
Qed.

Lemma js_or_nonzero (y : Z) (b : js_num) : y <> 0%Z -> js_or (Fin y) b = Fin y.
Proof. intros H. destruct y; [contradiction | reflexivity | reflexivity]. Qed.

(** The profile's minimum year, for a saved list with at least one year
    above 1900: the [k]-th most recent of those years with
    [k = ceil(0.7 * n)]. *)
Lemma minYear_kth (cy : Z) (wl : list movie) :
  years_of wl <> [] ->
  exists y, minYear cy wl = Fin y /\ In y (years_of wl) /\
    (length (filter (fun x => y <? x)%Z (years_of wl)) <
     Z.to_nat (Qceiling (nat_Q (length (years_of wl)) * 0.7)))%nat /\
    (Z.to_nat (Qceiling (nat_Q (length (years_of wl)) * 0.7)) <=
     length (filter (fun x => y <=? x)%Z (years_of wl)))%nat.
Proof.
  intros Hys. unfold minYear.
  set (ys := years_of wl) in *.
  set (s := sort_desc inject_Z ys).
  assert (Hperm : Permutation s ys) by apply sort_desc_perm.
  assert (Hss : StronglySorted (desc inject_Z) s) by apply sort_desc_strongly_sorted.
  assert (Hlen : length s = length ys) by (apply Permutation_length; exact Hperm).
  rewrite Hlen.
  assert (Hn : (1 <= length ys)%nat) by (destruct ys; [contradiction | simpl; lia]).
  destruct (ceiling_bounds (length ys) Hn) as [Hc1 Hc2].
  set (c := Qceiling (nat_Q (length ys) * 0.7)) in *.
  assert (Hslice : js_slice0 s c = firstn (Z.to_nat c) s).
  { unfold js_slice0. destruct (Z.ltb_spec c 0); [lia | reflexivity]. }
  rewrite Hslice.
  assert (Hk : length (firstn (Z.to_nat c) s) = Z.to_nat c)
    by (rewrite length_firstn; lia).
  assert (Hne : firstn (Z.to_nat c) s <> [])
    by (intros E; rewrite E in Hk; simpl in Hk; lia).
  destruct (exists_last Hne) as (a & y & Ha).
  assert (Hs_split : s = (a ++ y :: skipn (Z.to_nat c) s)%list).
  { rewrite <- (firstn_skipn (Z.to_nat c) s) at 1. rewrite Ha, <- app_assoc.
    reflexivity. }
  assert (Hss' : StronglySorted (desc inject_Z) (a ++ y :: skipn (Z.to_nat c) s)%list)
    by (rewrite <- Hs_split; exact Hss).
  assert (Hyin : In y ys).
  { apply (Permutation_in _ Hperm). rewrite Hs_split. apply in_or_app.
    right. now left. }
  exists y. split; [|split; [exact Hyin|]].
  - rewrite Ha.
    assert (Hpre : StronglySorted (desc inject_Z) (a ++ [y])%list).
    { apply (StronglySorted_app_l _ _ (skipn (Z.to_nat c) s)).
      rewrite <- app_assoc. exact Hss'. }
    destruct (a ++ [y])%list as [|x l] eqn:E; [destruct a; discriminate|].
    rewrite (js_min_sorted x l Hpre), <- E, last_last.
    apply js_or_nonzero. pose proof (years_of_gt wl y Hyin). lia.
  - destruct (sorted_split_counts a (skipn (Z.to_nat c) s) y Hss') as [H1 H2].
    rewrite <- Hs_split in H1, H2.
    rewrite (Permutation_filter_length _ _ _ Hperm) in H1.
    rewrite (Permutation_filter_length _ _ _ Hperm) in H2.
    rewrite Ha, length_app in Hk. simpl in Hk.
    split; lia.
Qed.

(** C8 (corrected).  For a non-empty saved list with at least one release
    year above 1900, the profile's year band has maximum the current year
    and minimum the [k]-th most recent of those years counted with
    multiplicity (one per saved item), [k = ceil(0.7 * n)] for [n] such
    years: fewer than [k] of them are more recent, at least [k] are at least
    as recent.  Duplicate years are not merged. *)
Theorem year_band_kth_most_recent (cy : Z) (wl : list movie)
    (Hne : wl <> []) (Hyears : years_of wl <> []) :
  exists p, analyzePreferences cy wl = Some p /\ year_max p = cy /\
  exists y, year_min p = Fin y /\ In y (years_of wl) /\
    (length (filter (fun x => y <? x)%Z (years_of wl)) <
     Z.to_nat (Qceiling (nat_Q (length (years_of wl)) * 0.7)))%nat /\
    (Z.to_nat (Qceiling (nat_Q (length (years_of wl)) * 0.7)) <=
     length (filter (fun x => y <=? x)%Z (years_of wl)))%nat.
Proof.
  destruct wl as [|w0 wl']; [contradiction|].
  eexists. split; [reflexivity|]. split; [reflexivity|].
  exact (minYear_kth cy (w0 :: wl') Hyears).
Qed.

Lemma year_band_kth_most_recent_witness :
  exists p, analyzePreferences 2026 saved_years_2020_2000 = Some p /\
    year_max p = 2026%Z.
Proof.
  destruct (year_band_kth_most_recent 2026 saved_years_2020_2000)
    as (p & Hp & Hmax & _).
  - discriminate.
  - vm_compute. discriminate.
  - exists p. split; assumption.
Defined.

(** C8 (counterexample).  Years 2020, 2020, 2020 and 2000: the code keeps
    the 3 most recent entries and its band starts at 2020; over the
    distinct years 2020 and 2000 the spec's band would start at 2000. *)
Lemma year_band_counts_duplicates :
  (exists p, analyzePreferences 2026 saved_years_2020_2000 = Some p /\
             year_min p = Fin 2020) /\
  spec_distinct_year_band_min saved_years_2020_2000 = Some 2000%Z.
Proof.
  split; [eexists; split; [reflexivity | vm_compute; reflexivity] |].
  vm_compute. reflexivity.
Qed.

(** ** Genre weights *)

Lemma genre_add_keys (g : N) (r : Q) (m : list (N * genre_stat)) (k : N) :
  In k (map fst (genre_add g r m)) <-> k = g \/ In k (map fst m).
Proof.
  induction m as [|[k0 st0] m IH]; simpl.
  - intuition congruence.
  - destruct (N.eqb_spec g k0) as [->|Hne]; simpl; [intuition congruence|].
    destruct (g <? k0)%N; simpl; [intuition congruence|].
    rewrite IH. intuition congruence.
Qed.

Lemma genre_add_sorted (g : N) (r : Q) (m : list (N * genre_stat)) :
  StronglySorted N.lt (map fst m) -> StronglySorted N.lt (map fst (genre_add g r m)).
Proof.
  induction m as [|[k0 st0] m IH]; simpl; intros Hs.
  - repeat constructor.
  - inversion Hs as [|? ? Hs' Hall]; subst. rewrite Forall_forall in Hall.
    destruct (N.eqb_spec g k0) as [->|Hne]; simpl; [exact Hs|].
    destruct (N.ltb_spec g k0) as [Hlt|Hge]; simpl.
    + constructor; [exact Hs|]. constructor; [exact Hlt|].
      rewrite Forall_forall. intros x Hx. apply Hall in Hx. lia.
    + constructor; [now apply IH|]. rewrite Forall_forall. intros x Hx.
      apply genre_add_keys in Hx. destruct Hx as [->|Hx]; [lia | now apply Hall].
Qed.

Lemma genre_add_entries (g : N) (r : Q) (m : list (N * genre_stat)) :
  StronglySorted N.lt (map fst m) ->
  forall k st, In (k, st) (genre_add g r m) ->
  (k <> g /\ In (k, st) m) \/
  (k = g /\ ((exists st0, In (g, st0) m /\ st = genre_bump r st0) \/
             (~ In g (map fst m) /\
              st = genre_bump r (mkGenreStat (getGenreName g) 0 0)))).
Proof.
  induction m as [|[k0 st0] m IH]; simpl; intros Hs k st Hin.
  - destruct Hin as [Heq|[]]. injection Heq as <- <-. right. split; [reflexivity|].
    right. split; [tauto | reflexivity].
  - inversion Hs as [|? ? Hs' Hall]; subst. rewrite Forall_forall in Hall.
    assert (Hkey : forall k' st', In (k', st') m -> (k0 < k')%N).
    { intros k' st' H. apply Hall. apply (in_map fst) in H. exact H. }
    destruct (N.eqb_spec g k0) as [->|Hne].
    + destruct Hin as [Heq|Hin].
      * injection Heq as <- <-. right. split; [reflexivity|]. left.
        exists st0. split; [now left | reflexivity].
      * left. specialize (Hkey k st Hin). split; [lia | now right].
    + destruct (N.ltb_spec g k0) as [Hlt|Hge].
      * destruct Hin as [Heq|Hin].
        -- injection Heq as <- <-. right. split; [reflexivity|]. right.
           split; [|reflexivity]. intros [H|H]; [lia|]. apply Hall in H. lia.
        -- left. destruct Hin as [Heq|Hin].
           ++ injection Heq as <- <-. split; [lia | now left].
           ++ specialize (Hkey k st Hin). split; [lia | now right].
      * destruct Hin as [Heq|Hin].
        -- injection Heq as <- <-. left. split; [lia | now left].
        -- destruct (IH Hs' k st Hin) as [[Hk Hin']|[Hk [(st1 & Hst1 & ->)|[Hnot ->]]]].
           ++ left. split; [exact Hk | now right].
           ++ right. split; [exact Hk|]. left. exists st1. split; [now right | reflexivity].
           ++ right. split; [exact Hk|]. right. split; [|reflexivity].
              intros [H|H]; [lia | contradiction].
Qed.

Lemma pair_count_app (g : N) (P P' : list (N * Q)) :
  pair_count g (P ++ P') = (pair_count g P + pair_count g P')%nat.
Proof. unfold pair_count. rewrite filter_app, length_app. reflexivity. Qed.

Lemma pair_total_app (g : N) (P P' : list (N * Q)) :
  pair_total g (P ++ P') == pair_total g P + pair_total g P'.
Proof.
  unfold pair_total. rewrite fold_right_app.
  induction P as [|[k r] P IH]; simpl; [ring|].
  rewrite IH. ring.
Qed.

Lemma pair_absent (g : N) (P : list (N * Q)) :
  ~ In g (map fst P) -> pair_count g P = 0%nat /\ pair_total g P == 0.
Proof.
  unfold pair_count, pair_total.
  induction P as [|[k r] P IH]; simpl; intros Hn; [split; reflexivity|].
  destruct (N.eqb_spec k g) as [->|Hne]; [exfalso; apply Hn; now left|].
  destruct IH as [H1 H2]; [intros H; apply Hn; now right|].
  split; [exact H1|]. rewrite H2. reflexivity.
Qed.

Lemma nat_Q_succ (n : nat) : nat_Q (S n) == 1 + nat_Q n.
Proof. unfold nat_Q. rewrite Nat2Z.inj_succ, <- Z.add_1_l, inject_Z_plus. reflexivity. Qed.

Lemma genre_count_inv_step (P : list (N * Q)) (m : list (N * genre_stat))
    (g : N) (r : Q) :
  genre_count_inv P m -> genre_count_inv (P ++ [(g, r)]) (genre_add g r m).
Proof.
  intros (Hs & Hkeys & Hent). split; [|split].
  - now apply genre_add_sorted.
  - intros k. rewrite genre_add_keys, map_app, in_app_iff, Hkeys. simpl.
    intuition congruence.
  - intros k st Hin.
    rewrite pair_count_app, pair_total_app. unfold pair_count at 2, pair_total at 2.
    simpl.
    destruct (genre_add_entries g r m Hs k st Hin)
      as [[Hk Hin']|[-> [(st0 & Hst0 & ->)|[Hnot ->]]]].
    + destruct (N.eqb_spec g k) as [<-|_]; [contradiction|].
      destruct (Hent k st Hin') as [H1 H2]. simpl.
      split; [lia|]. rewrite H2. ring.
    + rewrite N.eqb_refl. destruct (Hent g st0 Hst0) as [H1 H2]. simpl.
      split; [lia|]. rewrite H2. ring.
    + rewrite N.eqb_refl. simpl.
      assert (HP : ~ In g (map fst P)) by (rewrite <- Hkeys; exact Hnot).
      destruct (pair_absent g P HP) as [H1 H2].
      split; [lia|]. rewrite H2. ring.
Qed.

Lemma genre_count_inv_fold (P0 P : list (N * Q)) (m : list (N * genre_stat)) :
  genre_count_inv P0 m ->
  genre_count_inv (P0 ++ P)
    (fold_left (fun acc pr => genre_add (fst pr) (snd pr) acc) P m).
Proof.
  revert P0 m. induction P as [|[g r] P IH]; simpl; intros P0 m Hinv.
  - rewrite app_nil_r. exact Hinv.
  - replace (P0 ++ (g, r) :: P)%list with ((P0 ++ [(g, r)]) ++ P)%list
      by (rewrite <- app_assoc; reflexivity).
    apply IH. now apply genre_count_inv_step.
Qed.

Lemma fold_left_flat_map {A B C} (f : C -> B -> C) (h : A -> list B)
    (l : list A) (c : C) :
  fold_left f (flat_map h l) c = fold_left (fun acc x => fold_left f (h x) acc) l c.
Proof.
  revert c. induction l as [|x l IH]; simpl; intros c; [reflexivity|].
  rewrite fold_left_app. apply IH.
Qed.

Lemma fold_left_map_fun {A B C} (f : C -> B -> C) (h : A -> B) (l : list A) (c : C) :
  fold_left f (map h l) c = fold_left (fun acc x => f acc (h x)) l c.
Proof. revert c. induction l as [|x l IH]; simpl; intros c; [reflexivity | apply IH]. Qed.

Lemma genreCount_pairs (wl : list movie) :
  genreCount wl =
  fold_left (fun acc pr => genre_add (fst pr) (snd pr) acc) (genre_pairs wl) [].
Proof.
  unfold genreCount, genre_pairs. rewrite fold_left_flat_map.
  generalize (@nil (N * genre_stat)).
  induction wl as [|mv wl IH]; simpl; intros m; [reflexivity|].
  rewrite IH. unfold genre_count_movie. rewrite fold_left_map_fun. reflexivity.
Qed.

Lemma genre_pairs_keys (wl : list movie) (g : N) :
  In g (map fst (genre_pairs wl)) <-> In g (all_genres wl).
Proof.
  unfold genre_pairs, all_genres. rewrite flat_map_concat_map, concat_map, map_map.
  rewrite flat_map_concat_map.
  rewrite !in_concat. split; intros (l & Hl & Hg); apply in_map_iff in Hl;
    destruct Hl as (w & <- & Hw).
  - exists (genre_ids w). split; [apply in_map; exact Hw|].
    rewrite map_map in Hg. simpl in Hg. rewrite map_id in Hg. exact Hg.
  - exists (map fst (map (fun g => (g, or0 (vote_average w))) (genre_ids w))).
    split; [apply in_map_iff; exists w; auto|].
    rewrite map_map. simpl. rewrite map_id. exact Hg.
Qed.

Lemma pair_count_movie (g : N) (r : Q) (ids : list N) :
  pair_count g (map (fun g' => (g', r)) ids) = count_occ N.eq_dec ids g.
Proof.
  unfold pair_count. induction ids as [|y ids IH]; simpl; [reflexivity|].
  destruct (N.eq_dec y g) as [->|Hne].
  - rewrite N.eqb_refl. simpl. now rewrite IH.
  - apply N.eqb_neq in Hne. rewrite Hne. exact IH.
Qed.

Lemma pair_total_movie (g : N) (r : Q) (ids : list N) :
  pair_total g (map (fun g' => (g', r)) ids) == nat_Q (count_occ N.eq_dec ids g) * r.
Proof.
  unfold pair_total. induction ids as [|y ids IH]; simpl; [reflexivity|].
  destruct (N.eq_dec y g) as [->|Hne].
  - rewrite N.eqb_refl, nat_Q_succ. simpl. rewrite IH. ring.
  - apply N.eqb_neq in Hne. rewrite Hne. rewrite IH. ring.
Qed.

Lemma genre_pairs_count (wl : list movie) (g : N) :
  pair_count g (genre_pairs wl) = genre_occurrences wl g.
Proof.
  unfold genre_occurrences, all_genres, genre_pairs.
  induction wl as [|w wl IH]; simpl; [reflexivity|].
  rewrite pair_count_app, count_occ_app, pair_count_movie, IH. reflexivity.
Qed.

Lemma genre_pairs_total (wl : list movie) (g : N) :
  pair_total g (genre_pairs wl) == genre_rating_total wl g.
Proof.
  unfold genre_rating_total, genre_pairs.
  induction wl as [|w wl IH]; simpl; [reflexivity|].
  rewrite pair_total_app, pair_total_movie. fold (genre_pairs wl).
  unfold genre_pairs in *. rewrite IH. reflexivity.
Qed.

Lemma genreCount_inv (wl : list movie) :
  genre_count_inv (genre_pairs wl) (genreCount wl).
Proof.
  rewrite genreCount_pairs.
  apply (genre_count_inv_fold [] (genre_pairs wl) []).
  split; [constructor | split; [reflexivity | intros k st []]].
Qed.

Lemma StronglySorted_lt_NoDup (l : list N) : StronglySorted N.lt l -> NoDup l.
Proof.
  induction l as [|x l IH]; intros Hs; constructor.
  - inversion Hs as [|? ? _ Hall]; subst. rewrite Forall_forall in Hall.
    intros Hx. apply Hall in Hx. lia.
  - inversion Hs; subst. now apply IH.
Qed.

Lemma NoDup_firstn_of {A} (k : nat) (l : list A) : NoDup l -> NoDup (firstn k l).
Proof.
  intros H. rewrite <- (firstn_skipn k l) in H. exact (NoDup_app_remove_r _ _ H).
Qed.

(** Each entry of [genreCount] gives its genre the spec's weight. *)
Lemma genreCount_entry_weight (wl : list movie) (k : N) (st : genre_stat) :
  In (k, st) (genreCount wl) ->
  In k (all_genres wl) /\
  (nat_Q (gs_count st) / nat_Q (length wl)) *
  (gs_totalRating st / nat_Q (gs_count st) / 10) == spec_genre_weight wl k.
Proof.
  intros Hin. destruct (genreCount_inv wl) as (_ & Hkeys & Hent).
  split.
  - apply genre_pairs_keys, Hkeys. apply (in_map fst) in Hin. exact Hin.
  - destruct (Hent k st Hin) as [H1 H2].
    rewrite genre_pairs_count in H1. rewrite genre_pairs_total in H2.
    unfold spec_genre_weight. rewrite H1, H2. reflexivity.
Qed.

Lemma genreCount_keys_nodup (wl : list movie) :
  Permutation (map fst (genreCount wl)) (nodup N.eq_dec (all_genres wl)).
Proof.
  destruct (genreCount_inv wl) as (Hs & Hkeys & _).
  apply NoDup_Permutation.
  - now apply StronglySorted_lt_NoDup.
  - apply NoDup_nodup.
  - intros g. rewrite nodup_In, Hkeys. apply genre_pairs_keys.
Qed.

(** C7.  For a non-empty saved list, the favourite genres carry the spec's
    weight [(occurrences / saved items) * (average rating / 10)] for genre
    ids of the saved list, with no id twice, sorted by descending weight;
    there are [min(5, number of distinct ids)] of them, and every id left
    out weighs no more than any id kept (the top 5). *)
Theorem favorite_genres_top5 (cy : Z) (wl : list movie) (Hne : wl <> []) :
  exists p, analyzePreferences cy wl = Some p /\
  (forall gp, In gp (favorite_genres p) ->
     In (gp_id gp) (all_genres wl) /\
     gp_weight gp == spec_genre_weight wl (gp_id gp)) /\
  NoDup (map gp_id (favorite_genres p)) /\
  Sorted (fun a b => gp_weight b <= gp_weight a) (favorite_genres p) /\
  length (favorite_genres p) = Nat.min 5 (length (nodup N.eq_dec (all_genres wl))) /\
  (forall g, In g (all_genres wl) -> ~ In g (map gp_id (favorite_genres p)) ->
   forall gp, In gp (favorite_genres p) -> spec_genre_weight wl g <= gp_weight gp).
Proof.
  destruct wl as [|w0 wl']; [contradiction|].
  eexists. split; [reflexivity|]. simpl favorite_genres.
  set (W := w0 :: wl'). clearbody W. clear Hne w0 wl'.
  unfold favoriteGenres.
  set (F := fun e : N * genre_stat => mkGenrePref (fst e) (gs_name (snd e))
           ((nat_Q (gs_count (snd e)) / nat_Q (length W)) *
            (gs_totalRating (snd e) / nat_Q (gs_count (snd e)) / 10))).
  set (L := map F (genreCount W)).
  set (S := sort_desc gp_weight L).
  assert (Hperm : Permutation S L) by apply sort_desc_perm.
  assert (HL : forall gp, In gp L -> In (gp_id gp) (all_genres W) /\
                 gp_weight gp == spec_genre_weight W (gp_id gp)).
  { intros gp Hgp. apply in_map_iff in Hgp. destruct Hgp as ([k st] & <- & Hin).
    exact (genreCount_entry_weight W k st Hin). }
  assert (HLids : map gp_id L = map fst (genreCount W))
    by (unfold L; rewrite map_map; reflexivity).
  assert (HnodupS : NoDup (map gp_id S)).
  { apply (Permutation_NoDup (Permutation_map gp_id (Permutation_sym Hperm))).
    rewrite HLids. apply StronglySorted_lt_NoDup.
    exact (proj1 (genreCount_inv W)). }
  split; [|split; [|split; [|split]]].
  - intros gp Hgp. apply HL. apply (Permutation_in _ Hperm).
    exact (in_firstn_in _ _ _ Hgp).
  - rewrite <- firstn_map. now apply NoDup_firstn_of.
  - apply firstn_sorted. exact (sort_desc_sorted gp_weight L).
  - rewrite length_firstn, (Permutation_length Hperm).
    unfold L. rewrite length_map, <- (length_map fst (genreCount W)).
    rewrite (Permutation_length (genreCount_keys_nodup W)). reflexivity.
  - intros g Hg Hnot gp Hgp.
    assert (Hk : In g (map fst (genreCount W))).
    { destruct (genreCount_inv W) as (_ & Hkeys & _).
      apply Hkeys, genre_pairs_keys, Hg. }
    rewrite <- HLids in Hk. apply in_map_iff in Hk. destruct Hk as (e & <- & He).
    destruct (HL e He) as [_ Hw]. rewrite <- Hw.
    assert (HeS : In e S) by exact (Permutation_in _ (Permutation_sym Hperm) He).
    assert (Hrest : In e (skipn 5 S)).
    { rewrite <- (firstn_skipn 5 S) in HeS. apply in_app_or in HeS.
      destruct HeS as [HeS|HeS]; [|exact HeS].
      exfalso. apply Hnot. apply in_map. exact HeS. }
    pose proof (sort_desc_strongly_sorted gp_weight L) as Hss. fold S in Hss.
    rewrite <- (firstn_skipn 5 S) in Hss.
    exact (StronglySorted_app_rel _ _ _ Hss gp e Hgp Hrest).
Qed.

Lemma favorite_genres_top5_witness :
  exists p, analyzePreferences 2026 [saved_action] = Some p /\
  map gp_id (favorite_genres p) = [28%N] /\
  (forall gp, In gp (favorite_genres p) -> gp_weight gp == 0.9).
Proof.
  destruct (favorite_genres_top5 2026 [saved_action]) as (p & Hp & Hw & _ & _ & Hlen & _).
  - discriminate.
  - exists p. split; [exact Hp|]. split.
    + injection Hp as <-. reflexivity.
    + intros gp Hgp. destruct (Hw gp Hgp) as [Hin Heq]. rewrite Heq.
      simpl in Hin. destruct Hin as [<-|[]]. reflexivity.
Defined.

(** ** The watchlist store *)

Lemma media_kind_eqb_spec (a b : media_kind) : media_kind_eqb a b = true <-> a = b.
Proof. destruct a, b; simpl; split; congruence. Qed.

Lemma NoDup_map_filter {A B} (g : A -> B) (f : A -> bool) (l : list A) :
  NoDup (map g l) -> NoDup (map g (filter f l)).
Proof.
  induction l as [|x l IH]; simpl; intros Hn; [constructor|].
  inversion Hn as [|? ? Hx Hl]; subst.
  destruct (f x); simpl; [|now apply IH].
  constructor; [|now apply IH].
  intros Hin. apply Hx. apply in_map_iff in Hin. destruct Hin as (y & Hy & Hin).
  rewrite <- Hy. apply in_map. apply filter_In in Hin. apply Hin.
Qed.

Lemma NoDup_snoc {A} (l : list A) (x : A) :
  NoDup l -> ~ In x l -> NoDup (l ++ [x])%list.
Proof.
  intros Hl Hx. apply (Permutation_NoDup (Permutation_cons_append l x)).
  constructor; assumption.
Qed.

Lemma existsb_add_false (l : list WatchlistItem) (it : WatchlistItem) :
  existsb (fun item => (wi_id item =? wi_id it)%Z &&
                       media_kind_eqb (wi_media_type item) (wi_media_type it)) l = false ->
  ~ In (entry_key it) (map entry_key l).
Proof.
  intros He Hin. apply in_map_iff in Hin. destruct Hin as (x & Hx & Hin).
  unfold entry_key in Hx. injection Hx as Hid Hk.
  assert (existsb (fun item => (wi_id item =? wi_id it)%Z &&
            media_kind_eqb (wi_media_type item) (wi_media_type it)) l = true).
  { apply existsb_exists. exists x. split; [exact Hin|].
    rewrite Hid, Z.eqb_refl. simpl. apply media_kind_eqb_spec. exact Hk. }
  congruence.
Qed.

(** No two saved items share an id and a kind: every action keeps this,
    [LOAD_WATCHLIST] provided the loaded list has it. *)
Theorem watchlistReducer_unique_entries (now : string) (s : WatchlistState)
    (a : WatchlistAction)
    (Hs : unique_entries (items s))
    (Hload : forall l, a = LOAD_WATCHLIST l -> unique_entries l) :
  unique_entries (items (watchlistReducer now s a)).
Proof.
  unfold unique_entries in *.
  destruct a as [b|l|it|i|i w|]; simpl.
  - exact Hs.
  - exact (Hload l eq_refl).
  - destruct (existsb _ (items s)) eqn:E; [exact Hs|]. simpl.
    rewrite map_app. simpl. apply NoDup_snoc; [exact Hs|].
    exact (existsb_add_false _ _ E).
  - now apply NoDup_map_filter.
  - rewrite map_map.
    erewrite map_ext; [exact Hs|]. intros x.
    destruct (wi_id x =? i)%Z; reflexivity.
  - constructor.
Qed.

Lemma isInWatchlist_iff (i : Z) (s : WatchlistState) :
  isInWatchlist i s = true <-> exists it, In it (items s) /\ wi_id it = i.
Proof.
  unfold isInWatchlist. rewrite existsb_exists. split.
  - intros (it & Hin & E). apply Z.eqb_eq in E. eauto.
  - intros (it & Hin & E). exists it. split; [exact Hin|]. now apply Z.eqb_eq.
Qed.

Lemma isInWatchlist_false (i : Z) (s : WatchlistState) :
  isInWatchlist i s = false <-> forall it, In it (items s) -> wi_id it <> i.
Proof.
  split.
  - intros H it Hin E. assert (isInWatchlist i s = true)
      by (apply isInWatchlist_iff; eauto). congruence.
  - intros H. destruct (isInWatchlist i s) eqn:E; [|reflexivity].
    apply isInWatchlist_iff in E. destruct E as (it & Hin & Hid).
    exfalso. exact (H it Hin Hid).
Qed.

Lemma addToWatchlist_spec_aux (now : string) (item : NewItem) (s : WatchlistState) :
  isInWatchlist (ni_id item) (addToWatchlist now item s) = true /\
  ((exists it, In it (items s) /\ wi_id it = ni_id item /\
               wi_media_type it = ni_media_type item) ->
   addToWatchlist now item s = s) /\
  ((forall it, In it (items s) -> wi_id it = ni_id item ->
               wi_media_type it <> ni_media_type item) ->
   items (addToWatchlist now item s) =
     (items s ++ [watchlist_item_of now item])%list /\
   loading (addToWatchlist now item s) = loading s /\
   added_date (watchlist_item_of now item) = now /\
   watched (watchlist_item_of now item) = false).
Proof.
  unfold addToWatchlist. simpl.
  destruct (existsb _ (items s)) eqn:E.
  - apply existsb_exists in E. destruct E as (x & Hx & Hxe).
    apply andb_true_iff in Hxe as [Hid Hk]. apply Z.eqb_eq in Hid.
    apply media_kind_eqb_spec in Hk. simpl in Hid, Hk.
    split; [apply isInWatchlist_iff; eauto|]. split; [reflexivity|].
    intros Hno. exfalso. exact (Hno x Hx Hid Hk).
  - split.
    + apply isInWatchlist_iff. exists (watchlist_item_of now item).
      split; [simpl; apply in_or_app; right; now left | reflexivity].
    + split.
      * intros (x & Hx & Hid & Hk). exfalso.
        apply (existsb_add_false (items s) (watchlist_item_of now item) E).
        apply in_map_iff. exists x.
        split; [unfold entry_key; simpl; congruence | exact Hx].
      * intros _. repeat split.
Qed.

(** [addToWatchlist] always leaves the id in the watchlist; when an item
    with the same id and kind is already saved the state is unchanged,
    otherwise the new item, added now and not watched, goes at the end. *)
Theorem addToWatchlist_spec (now : string) (item : NewItem) (s : WatchlistState) :
  isInWatchlist (ni_id item) (addToWatchlist now item s) = true /\
  ((exists it, In it (items s) /\ wi_id it = ni_id item /\
               wi_media_type it = ni_media_type item) ->
   addToWatchlist now item s = s) /\
  ((forall it, In it (items s) -> wi_id it = ni_id item ->
               wi_media_type it <> ni_media_type item) ->
   items (addToWatchlist now item s) =
     (items s ++ [watchlist_item_of now item])%list /\
   loading (addToWatchlist now item s) = loading s /\
   added_date (watchlist_item_of now item) = now /\
   watched (watchlist_item_of now item) = false).
Proof. exact (addToWatchlist_spec_aux now item s). Qed.

Lemma removeFromWatchlist_spec_aux (now : string) (i : Z) (s : WatchlistState) :
  isInWatchlist i (removeFromWatchlist now i s) = false /\
  isWatched i (removeFromWatchlist now i s) = false /\
  (forall it, In it (items (removeFromWatchlist now i s)) <->
              In it (items s) /\ wi_id it <> i) /\
  loading (removeFromWatchlist now i s) = loading s.
Proof.
  assert (Hin : forall it, In it (items (removeFromWatchlist now i s)) <->
                           In it (items s) /\ wi_id it <> i).
  { intros it. unfold removeFromWatchlist. simpl. rewrite filter_In.
    rewrite negb_true_iff, Z.eqb_neq. reflexivity. }
  assert (Hnot : isInWatchlist i (removeFromWatchlist now i s) = false).
  { apply isInWatchlist_false. intros it H. apply Hin in H. apply H. }
  split; [exact Hnot|]. split; [|split; [exact Hin | reflexivity]].
  unfold isWatched. destruct (find_item i _) as [x|] eqn:E; [|reflexivity].
  apply find_some in E. destruct E as [Hx Hid]. apply Z.eqb_eq in Hid.
  apply Hin in Hx. destruct Hx as [_ Hx]. contradiction.
Qed.

(** [removeFromWatchlist i] removes every item with id [i], whatever its
    kind, and keeps every other item; afterwards [i] is neither in the
    watchlist nor watched. *)
Theorem removeFromWatchlist_spec (now : string) (i : Z) (s : WatchlistState) :
  isInWatchlist i (removeFromWatchlist now i s) = false /\
  isWatched i (removeFromWatchlist now i s) = false /\
  (forall it, In it (items (removeFromWatchlist now i s)) <->
              In it (items s) /\ wi_id it <> i) /\
  loading (removeFromWatchlist now i s) = loading s.
Proof. exact (removeFromWatchlist_spec_aux now i s). Qed.

Lemma filter_all_neq (i : Z) (l : list WatchlistItem) :
  (forall it, In it l -> wi_id it <> i) ->
  filter (fun item => negb (wi_id item =? i)%Z) l = l.
Proof.
  induction l as [|x l IH]; simpl; intros H; [reflexivity|].
  assert (Hx : (wi_id x =? i)%Z = false) by (apply Z.eqb_neq, H; now left).
  rewrite Hx. simpl. f_equal. apply IH. intros it Hit. apply H. now right.
Qed.

Lemma add_then_remove_restores_aux (now now' : string) (item : NewItem)
    (s : WatchlistState)
    (Hnot : isInWatchlist (ni_id item) s = false) :
  removeFromWatchlist now' (ni_id item) (addToWatchlist now item s) = s.
Proof.
  pose proof (proj1 (isInWatchlist_false _ _) Hnot) as Hall.
  destruct (addToWatchlist_spec_aux now item s) as (_ & _ & Hnew).
  destruct Hnew as (Hitems & Hload & _).
  { intros it Hit Hid. exfalso. exact (Hall it Hit Hid). }
  unfold removeFromWatchlist. simpl. rewrite Hitems, Hload, filter_app.
  rewrite filter_all_neq by exact Hall. simpl. rewrite Z.eqb_refl. simpl.
  rewrite app_nil_r. destruct s; reflexivity.
Qed.

(** Adding an item whose id is not saved and then removing that id gives
    back the original state. *)
Theorem add_then_remove_restores (now now' : string) (item : NewItem)
    (s : WatchlistState)
    (Hnot : isInWatchlist (ni_id item) s = false) :
  removeFromWatchlist now' (ni_id item) (addToWatchlist now item s) = s.
Proof. exact (add_then_remove_restores_aux now now' item s Hnot). Qed.

Lemma add_then_remove_restores_witness :
  isInWatchlist 42
    (mkState [mkItem 7 "Alien" None None None None 8 "" movie_kind "t0" true (Some "t0");
              mkItem 8 "Lost" (Some "Lost") None None None 7 "" tv_kind "t0" false None]
             true) = false /\
  removeFromWatchlist "t2" 42
    (addToWatchlist "t1" (mkNewItem 42 "Heat" None None None None 8 "" movie_kind None)
       (mkState [mkItem 7 "Alien" None None None None 8 "" movie_kind "t0" true (Some "t0");
                 mkItem 8 "Lost" (Some "Lost") None None None 7 "" tv_kind "t0" false None]
                true)) =
  mkState [mkItem 7 "Alien" None None None None 8 "" movie_kind "t0" true (Some "t0");
           mkItem 8 "Lost" (Some "Lost") None None None 7 "" tv_kind "t0" false None]
          true.
Proof.
  split; [reflexivity|].
  apply (add_then_remove_restores "t1" "t2"
           (mkNewItem 42 "Heat" None None None None 8 "" movie_kind None)
           (mkState [mkItem 7 "Alien" None None None None 8 "" movie_kind "t0" true (Some "t0");
                     mkItem 8 "Lost" (Some "Lost") None None None 7 "" tv_kind "t0" false None]
                    true)).
  reflexivity.
Defined.

(** The compact button toggles membership: after a click the id is in the
    watchlist exactly when it was not before; two clicks starting from a
    state without the id give back that state. *)
Theorem handleToggleWatchlist_flips (now now' : string) (p : WatchlistButtonsProps)
    (s : WatchlistState) :
  isInWatchlist (p_id p) (handleToggleWatchlist now p s) =
    negb (isInWatchlist (p_id p) s) /\
  (isInWatchlist (p_id p) s = false ->
   handleToggleWatchlist now' p (handleToggleWatchlist now p s) = s).
Proof.
  unfold handleToggleWatchlist.
  destruct (isInWatchlist (p_id p) s) eqn:E.
  - split; [apply (proj1 (removeFromWatchlist_spec_aux now (p_id p) s))|].
    discriminate.
  - assert (Hin : isInWatchlist (p_id p) (addToWatchlist now (props_item p) s) = true)
      by exact (proj1 (addToWatchlist_spec_aux now (props_item p) s)).
    split; [exact Hin|]. intros _. rewrite Hin.
    exact (add_then_remove_restores_aux now now' (props_item p) s E).
Qed.

Lemma find_item_map (i : Z) (h : WatchlistItem -> WatchlistItem)
    (l : list WatchlistItem) :
  (forall it, wi_id (h it) = wi_id it) ->
  find_item i (map h l) = option_map h (find_item i l).
Proof.
  intros Hh. unfold find_item. induction l as [|x l IH]; simpl; [reflexivity|].
  rewrite Hh. destruct (wi_id x =? i)%Z; [reflexivity | exact IH].
Qed.

Lemma toggle_map_id (now : string) (i : Z) (w : bool) (it : WatchlistItem) :
  wi_id ((fun item => if (wi_id item =? i)%Z then set_watched now w item
                      else item) it) = wi_id it.
Proof. cbv beta. destruct (wi_id it =? i)%Z; reflexivity. Qed.

(** [toggleWatched i] on a saved id flips [isWatched i]; every item with
    id [i] gets the new flag, with a watched date exactly when it is
    watched, every item with another id is unchanged, and the (id, kind)
    list stays the same.  On an id that is not saved it does nothing. *)
Theorem toggleWatched_spec (now : string) (i : Z) (s : WatchlistState) :
  (isInWatchlist i s = true ->
   isWatched i (toggleWatched now i s) = negb (isWatched i s) /\
   (forall it, In it (items (toggleWatched now i s)) -> wi_id it = i ->
      watched it = negb (isWatched i s) /\
      watched_date it = if watched it then Some now else None) /\
   (forall k, k <> i ->
      filter (fun it => (wi_id it =? k)%Z) (items (toggleWatched now i s)) =
      filter (fun it => (wi_id it =? k)%Z) (items s)) /\
   map entry_key (items (toggleWatched now i s)) = map entry_key (items s) /\
   loading (toggleWatched now i s) = loading s) /\
  (isInWatchlist i s = false -> toggleWatched now i s = s).
Proof.
  split.
  - intros Hin. unfold toggleWatched, isWatched.
    destruct (find_item i (items s)) as [x|] eqn:Ex.
    2:{ exfalso. apply isInWatchlist_iff in Hin. destruct Hin as (it & Hit & Hid).
        unfold find_item in Ex. apply (find_none _ _ Ex) in Hit.
        rewrite Hid, Z.eqb_refl in Hit. discriminate. }
    set (h := fun item => if (wi_id item =? i)%Z
                          then set_watched now (negb (watched x)) item else item).
    simpl. fold h.
    split; [|split; [|split; [|split]]].
    + rewrite (find_item_map i h (items s) (toggle_map_id now i _)), Ex. simpl.
      unfold h. apply find_some in Ex. destruct Ex as [_ Hid]. rewrite Hid.
      reflexivity.
    + intros it Hit Hid. apply in_map_iff in Hit. destruct Hit as (y & <- & Hy).
      unfold h in *. destruct (wi_id y =? i)%Z eqn:Ey.
      * simpl. split; [reflexivity | reflexivity].
      * simpl in Hid. apply Z.eqb_neq in Ey. contradiction.
    + intros k Hk. clear Ex Hin. induction (items s) as [|y l IH]; simpl;
        [reflexivity|].
      assert (Hhy : wi_id (h y) = wi_id y) by (unfold h; apply toggle_map_id).
      rewrite Hhy.
      destruct (wi_id y =? k)%Z eqn:Eyk; [|exact IH].
      f_equal; [|exact IH]. apply Z.eqb_eq in Eyk.
      unfold h. assert (Hyi : (wi_id y =? i)%Z = false)
        by (apply Z.eqb_neq; congruence). rewrite Hyi. reflexivity.
    + rewrite map_map. apply map_ext. intros y. unfold h.
      destruct (wi_id y =? i)%Z; reflexivity.
    + reflexivity.
  - intros Hnot. unfold toggleWatched.
    destruct (find_item i (items s)) as [x|] eqn:Ex; [|reflexivity].
    exfalso. apply find_some in Ex. destruct Ex as [Hx Hid].
    apply Z.eqb_eq in Hid. exact (proj1 (isInWatchlist_false i s) Hnot x Hx Hid).
Qed.

Lemma length_filter_le {A} (f : A -> bool) (l : list A) :
  (length (filter f l) <= length l)%nat.
Proof.
  induction l as [|x l IH]; simpl; [lia|]. destruct (f x); simpl; lia.
Qed.

(** The watchlist counts: [watched + unwatched = total] and neither is
    negative; adding an entry not yet saved (no saved item with its id and
    kind) raises [total] and [unwatched] by one and leaves [watched] as it
    was. *)
Theorem getWatchlistStats_spec (now : string) (item : NewItem) (s : WatchlistState) :
  (stats_watched (getWatchlistStats s) + stats_unwatched (getWatchlistStats s) =
   stats_total (getWatchlistStats s))%Z /\
  (0 <= stats_watched (getWatchlistStats s))%Z /\
  (0 <= stats_unwatched (getWatchlistStats s))%Z /\
  ((forall it, In it (items s) -> wi_id it = ni_id item ->
               wi_media_type it <> ni_media_type item) ->
   let st := getWatchlistStats s in
   let st' := getWatchlistStats (addToWatchlist now item s) in
   stats_total st' = (stats_total st + 1)%Z /\
   stats_watched st' = stats_watched st /\
   stats_unwatched st' = (stats_unwatched st + 1)%Z).
Proof.
  split; [|split; [|split]];
    try (unfold getWatchlistStats; simpl;
         pose proof (length_filter_le watched (items s)); lia).
  intros Hnew st st'. unfold st, st', addToWatchlist. simpl.
  destruct (existsb _ (items s)) eqn:E.
  - exfalso. apply existsb_exists in E. destruct E as (x & Hx & Hxe).
    apply andb_true_iff in Hxe as [Hid Hk]. apply Z.eqb_eq in Hid.
    apply media_kind_eqb_spec in Hk. exact (Hnew x Hx Hid Hk).
  - unfold getWatchlistStats. simpl. rewrite filter_app, !length_app. simpl. lia.
Qed.

(** ** Rating aggregation: range and monotonicity *)

Lemma spec_weight_nonneg (o : option Q) (w : Q) : 0 <= w -> 0 <= spec_weight o w.
Proof. intros Hw. unfold spec_weight. destruct (present o); [exact Hw | apply Qle_refl]. Qed.

Lemma spec_total_weight_nonneg (r : ratings) : 0 <= spec_total_weight r.
Proof.
  unfold spec_total_weight.
  repeat apply Qplus_nonneg; apply spec_weight_nonneg; discriminate.
Qed.

Lemma coef_nonneg (o : option Q) (w W : Q) : 0 <= w -> 0 <= W -> 0 <= spec_weight o w / W.
Proof. intros Hw HW. apply Qdiv_nonneg; [now apply spec_weight_nonneg | exact HW]. Qed.

Lemma coef_present (o : option Q) (w W : Q) :
  ~ (spec_weight o w / W == 0) -> present o = true.
Proof.
  unfold spec_weight. destruct (present o); [reflexivity|].
  intros H. exfalso. apply H. reflexivity.
Qed.

Lemma term_le (c v v' : Q) : 0 <= c -> (~ c == 0 -> v <= v') -> c * v <= c * v'.
Proof.
  intros Hc H. destruct (Qeq_dec c 0) as [E|E].
  - rewrite E, !Qmult_0_l. apply Qle_refl.
  - apply Qmult_le_l; [|exact (H E)].
    apply Qle_lteq in Hc. destruct Hc as [Hc|Hc]; [exact Hc|].
    exfalso. apply E. symmetry. exact Hc.
Qed.

(** The weighted average is a combination of the four coefficients. *)
Lemma spec_weighted_average_terms (r : ratings) :
  Qeq_bool (spec_total_weight r) 0 = false ->
  spec_weighted_average r =
  spec_weight (tmdb_score r) 0.25 / spec_total_weight r * or0 (tmdb_score r) +
  spec_weight (imdb_score r) 0.35 / spec_total_weight r * or0 (imdb_score r) +
  spec_weight (rt_critics_score r) 0.25 / spec_total_weight r *
    (or0 (rt_critics_score r) / 10) +
  spec_weight (metacritic_score r) 0.15 / spec_total_weight r *
    (or0 (metacritic_score r) / 10).
Proof. intros H. unfold spec_weighted_average. rewrite H. reflexivity. Qed.

Lemma spec_total_weight_pos (r : ratings) :
  Qeq_bool (spec_total_weight r) 0 = false -> 0 < spec_total_weight r.
Proof.
  intros H. pose proof (spec_total_weight_nonneg r) as Hn.
  apply Qle_lteq in Hn. destruct Hn as [Hn|Hn]; [exact Hn|].
  assert (Qeq_bool (spec_total_weight r) 0 = true)
    by (apply Qeq_bool_iff; symmetry; exact Hn). congruence.
Qed.

Section WeightedAverage.
Variable r : ratings.
Hypothesis EW : Qeq_bool (spec_total_weight r) 0 = false.

Let W := spec_total_weight r.
Let c1 := spec_weight (tmdb_score r) 0.25 / W.
Let c2 := spec_weight (imdb_score r) 0.35 / W.
Let c3 := spec_weight (rt_critics_score r) 0.25 / W.
Let c4 := spec_weight (metacritic_score r) 0.15 / W.

Lemma coefs_sum : c1 + c2 + c3 + c4 == 1.
Proof.
  pose proof (spec_total_weight_pos r EW) as HW.
  assert (HWn : ~ spec_total_weight r == 0)
    by (intros E; rewrite E in HW; discriminate HW).
  unfold c1, c2, c3, c4, W, spec_total_weight. field.
  exact HWn.
Qed.

Lemma coefs_nonneg : 0 <= c1 /\ 0 <= c2 /\ 0 <= c3 /\ 0 <= c4.
Proof.
  pose proof (Qlt_le_weak _ _ (spec_total_weight_pos r EW)) as HW.
  repeat split; apply coef_nonneg; try discriminate; exact HW.
Qed.

Lemma spec_weighted_average_coefs :
  spec_weighted_average r =
  c1 * or0 (tmdb_score r) + c2 * or0 (imdb_score r) +
  c3 * (or0 (rt_critics_score r) / 10) + c4 * (or0 (metacritic_score r) / 10).
Proof. exact (spec_weighted_average_terms r EW). Qed.

Lemma combination_le_const (v1 v2 v3 v4 hi : Q) :
  (~ c1 == 0 -> v1 <= hi) -> (~ c2 == 0 -> v2 <= hi) ->
  (~ c3 == 0 -> v3 <= hi) -> (~ c4 == 0 -> v4 <= hi) ->
  c1 * v1 + c2 * v2 + c3 * v3 + c4 * v4 <= hi.
Proof.
  intros H1 H2 H3 H4. destruct coefs_nonneg as (P1 & P2 & P3 & P4).
  apply Qle_trans with (y := c1 * hi + c2 * hi + c3 * hi + c4 * hi).
  - repeat apply Qplus_le_compat; apply term_le; assumption.
  - setoid_replace (c1 * hi + c2 * hi + c3 * hi + c4 * hi)
      with ((c1 + c2 + c3 + c4) * hi) by ring.
    rewrite coefs_sum, Qmult_1_l. apply Qle_refl.
Qed.

Lemma combination_ge_const (v1 v2 v3 v4 lo : Q) :
  (~ c1 == 0 -> lo <= v1) -> (~ c2 == 0 -> lo <= v2) ->
  (~ c3 == 0 -> lo <= v3) -> (~ c4 == 0 -> lo <= v4) ->
  lo <= c1 * v1 + c2 * v2 + c3 * v3 + c4 * v4.
Proof.
  intros H1 H2 H3 H4. destruct coefs_nonneg as (P1 & P2 & P3 & P4).
  apply Qle_trans with (y := c1 * lo + c2 * lo + c3 * lo + c4 * lo).
  - setoid_replace (c1 * lo + c2 * lo + c3 * lo + c4 * lo)
      with ((c1 + c2 + c3 + c4) * lo) by ring.
    rewrite coefs_sum, Qmult_1_l. apply Qle_refl.
  - repeat apply Qplus_le_compat; apply term_le; assumption.
Qed.

Lemma combination_mono (v1 v2 v3 v4 u1 u2 u3 u4 : Q) :
  (~ c1 == 0 -> v1 <= u1) -> (~ c2 == 0 -> v2 <= u2) ->
  (~ c3 == 0 -> v3 <= u3) -> (~ c4 == 0 -> v4 <= u4) ->
  c1 * v1 + c2 * v2 + c3 * v3 + c4 * v4 <= c1 * u1 + c2 * u2 + c3 * u3 + c4 * u4.
Proof.
  intros H1 H2 H3 H4. destruct coefs_nonneg as (P1 & P2 & P3 & P4).
  repeat apply Qplus_le_compat; apply term_le; assumption.
Qed.
End WeightedAverage.

Lemma round_tenth_mono (x y : Q) :
  x <= y -> inject_Z (js_round (x * 10)) / 10 <= inject_Z (js_round (y * 10)) / 10.
Proof.
  intros H. apply Qmult_le_compat_r; [|discriminate].
  rewrite <- Zle_Qle. unfold js_round. apply Qfloor_resp_le.
  apply Qplus_le_compat; [|apply Qle_refl].
  apply Qmult_le_compat_r; [exact H | discriminate].
Qed.

Lemma round_tenth_const (z : Z) :
  inject_Z (js_round (inject_Z z * 10)) / 10 == inject_Z z.
Proof.
  rewrite (js_round_comp _ (inject_Z (z * 10))) by (rewrite inject_Z_mult; reflexivity).
  rewrite js_round_Z, inject_Z_mult. field.
Qed.

Lemma present_pos (o : option Q) : present o = true -> 0 < or0 o.
Proof. destruct o as [s|]; simpl; intros Hp; [now apply Qltb_spec | discriminate]. Qed.

Lemma present_le (o : option Q) (M : Q) :
  (forall s, o = Some s -> s <= M) -> present o = true -> or0 o <= M.
Proof. destruct o as [s|]; simpl; intros HM Hp; [apply HM; reflexivity | discriminate]. Qed.

Lemma div10_le (q M : Q) : q <= M * 10 -> q / 10 <= M.
Proof. intros H. apply Qle_shift_div_r; [reflexivity | exact H]. Qed.

(** The aggregated score is never negative, and it is at most 10 when the
    TMDB and IMDb scores are at most 10 and the Rotten Tomatoes and
    Metacritic scores at most 100. *)
Theorem aggregated_score_range (r : ratings) :
  0 <= calculateAggregatedScore r /\
  ((forall s, tmdb_score r = Some s -> s <= 10) ->
   (forall s, imdb_score r = Some s -> s <= 10) ->
   (forall s, rt_critics_score r = Some s -> s <= 100) ->
   (forall s, metacritic_score r = Some s -> s <= 100) ->
   calculateAggregatedScore r <= 10).
Proof.
  rewrite aggregated_score_spec. split.
  - rewrite <- (round_tenth_const 0). apply round_tenth_mono.
    destruct (Qeq_bool (spec_total_weight r) 0) eqn:EW.
    + unfold spec_weighted_average. rewrite EW. apply Qle_refl.
    + rewrite (spec_weighted_average_coefs r EW).
      apply (combination_ge_const r EW); intros Hc; apply coef_present in Hc;
        apply present_pos, Qlt_le_weak in Hc;
        [exact Hc | exact Hc | apply Qdiv_nonneg; [exact Hc | discriminate] ..].
  - intros H1 H2 H3 H4.
    apply Qle_trans with (y := inject_Z (js_round (inject_Z 10 * 10)) / 10);
      [apply round_tenth_mono | rewrite round_tenth_const; apply Qle_refl].
    destruct (Qeq_bool (spec_total_weight r) 0) eqn:EW.
    + unfold spec_weighted_average. rewrite EW. discriminate.
    + rewrite (spec_weighted_average_coefs r EW).
      apply (combination_le_const r EW); intros Hc; apply coef_present in Hc.
      * exact (present_le _ _ H1 Hc).
      * exact (present_le _ _ H2 Hc).
      * apply div10_le. exact (present_le _ _ H3 Hc).
      * apply div10_le. exact (present_le _ _ H4 Hc).
Qed.

Lemma spec_weight_same (o o' : option Q) (w : Q) :
  present o = present o' -> spec_weight o w = spec_weight o' w.
Proof. unfold spec_weight. intros E. rewrite E. reflexivity. Qed.

(** Raising the scores of providers that already count (score above 0),
    without making any provider appear or disappear, never lowers the
    aggregated score. *)
Theorem aggregated_score_monotone (r r' : ratings)
    (Pt : present (tmdb_score r) = present (tmdb_score r'))
    (Pi : present (imdb_score r) = present (imdb_score r'))
    (Prt : present (rt_critics_score r) = present (rt_critics_score r'))
    (Pmc : present (metacritic_score r) = present (metacritic_score r'))
    (Ht : present (tmdb_score r) = true -> or0 (tmdb_score r) <= or0 (tmdb_score r'))
    (Hi : present (imdb_score r) = true -> or0 (imdb_score r) <= or0 (imdb_score r'))
    (Hrt : present (rt_critics_score r) = true ->
           or0 (rt_critics_score r) <= or0 (rt_critics_score r'))
    (Hmc : present (metacritic_score r) = true ->
           or0 (metacritic_score r) <= or0 (metacritic_score r')) :
  calculateAggregatedScore r <= calculateAggregatedScore r'.
Proof.
  rewrite !aggregated_score_spec. apply round_tenth_mono.
  assert (E1 := spec_weight_same _ _ 0.25 Pt).
  assert (E2 := spec_weight_same _ _ 0.35 Pi).
  assert (E3 := spec_weight_same _ _ 0.25 Prt).
  assert (E4 := spec_weight_same _ _ 0.15 Pmc).
  assert (EW : spec_total_weight r = spec_total_weight r')
    by (unfold spec_total_weight; rewrite E1, E2, E3, E4; reflexivity).
  destruct (Qeq_bool (spec_total_weight r) 0) eqn:HW.
  - unfold spec_weighted_average. rewrite <- EW, HW. apply Qle_refl.
  - rewrite (spec_weighted_average_coefs r HW).
    rewrite (spec_weighted_average_coefs r' ltac:(rewrite <- EW; exact HW)).
    rewrite <- EW, <- E1, <- E2, <- E3, <- E4.
    apply (combination_mono r HW); intros Hc; apply coef_present in Hc.
    + exact (Ht Hc).
    + exact (Hi Hc).
    + apply Qmult_le_compat_r; [exact (Hrt Hc) | discriminate].
    + apply Qmult_le_compat_r; [exact (Hmc Hc) | discriminate].
Qed.

Lemma aggregated_score_monotone_witness :
  calculateAggregatedScore (mkRatings (Some 7) (Some 8) None None) <=
  calculateAggregatedScore (mkRatings (Some 7) (Some 9) None None).
Proof.
  apply aggregated_score_monotone; try reflexivity;
    intros _; simpl; discriminate.
Defined.

(** ** TMDB-only items *)

(** For a TMDB item with a positive vote average [v], [convertTMDBToEnhanced]
    stores [v] itself as the aggregated score, while
    [calculateAggregatedScore] of the ratings it builds gives [v] rounded
    to one decimal; the two agree exactly when [v] has at most one
    decimal. *)
Theorem converted_aggregated_score_unrounded (it : tmdb_item) (v : Q)
    (Hv : tmdb_vote_average it = Some v) (Hpos : 0 < v) :
  em_aggregatedScore (convertTMDBToEnhanced it) = v /\
  calculateAggregatedScore (em_ratings (convertTMDBToEnhanced it)) ==
    inject_Z (js_round (v * 10)) / 10 /\
  (em_aggregatedScore (convertTMDBToEnhanced it) ==
     calculateAggregatedScore (em_ratings (convertTMDBToEnhanced it)) <->
   exists z : Z, v * 10 == inject_Z z).
Proof.
  assert (Hcalc : calculateAggregatedScore (em_ratings (convertTMDBToEnhanced it)) ==
                  inject_Z (js_round (v * 10)) / 10).
  { rewrite aggregated_score_spec. apply round_tenth_comp.
    apply Qmult_comp; [|reflexivity]. apply weighted_average_single.
    unfold convertTMDBToEnhanced, present_values. simpl. rewrite Hv. simpl.
    apply Qltb_spec in Hpos. rewrite Hpos. reflexivity. }
  assert (Hagg : em_aggregatedScore (convertTMDBToEnhanced it) = v)
    by (simpl; rewrite Hv; reflexivity).
  split; [exact Hagg|]. split; [exact Hcalc|].
  rewrite Hagg, Hcalc. split.
  - intros H. exists (js_round (v * 10)). rewrite H at 1. field.
  - intros (z & Hz). rewrite (js_round_comp _ _ Hz), js_round_Z, <- Hz. field.
Qed.

Lemma converted_aggregated_score_unrounded_witness :
  em_aggregatedScore (convertTMDBToEnhanced
    (mkTmdbItem 1 (Some "Heat") None None None (Some 7.254) (Some 100) None None)) = 7.254 /\
  calculateAggregatedScore (em_ratings (convertTMDBToEnhanced
    (mkTmdbItem 1 (Some "Heat") None None None (Some 7.254) (Some 100) None None))) ==
    inject_Z (js_round (7.254 * 10)) / 10.
Proof.
  destruct (converted_aggregated_score_unrounded
    (mkTmdbItem 1 (Some "Heat") None None None (Some 7.254) (Some 100) None None) 7.254
    eq_refl ltac:(reflexivity)) as (H1 & H2 & _).
  split; assumption.
Defined.

(** ** The personalised ranking *)

Lemma js_slice0_nonneg {A} (l : list A) (n : Z) :
  (0 <= n)%Z -> js_slice0 l n = firstn (Z.to_nat n) l.
Proof.
  intros Hn. unfold js_slice0. destruct (Z.ltb_spec n 0); [lia | reflexivity].
Qed.

Lemma scored_candidates_length_filter (p : UserPreferences) (wl cands : list movie) :
  length (scored_candidates p wl cands) =
  length (filter (fun c => negb (in_watchlist wl c) &&
                           Qltb 0.3 (calculateRecommendationScore p c)) cands).
Proof.
  induction cands as [|c cands IH]; simpl; [reflexivity|].
  destruct (in_watchlist wl c); simpl; [exact IH|].
  destruct (Qltb 0.3 _); simpl; [f_equal|]; exact IH.
Qed.

(** In personalised mode with [limit >= 0] the output is sorted by
    descending score, has [min(limit, e)] items where [e] is the number of
    eligible candidates (id not saved, score above 0.3), and every eligible
    candidate left out scores no more than every returned item. *)
Theorem personalized_top_scores (cy : Z) (wl cands : list movie) (limit : Z)
    (p : UserPreferences)
    (Hp : analyzePreferences cy wl = Some p) (Hlim : (0 <= limit)%Z) :
  Sorted (fun a b => rec_score b <= rec_score a)
         (generateRecommendations (new_engine cy wl) cands limit) /\
  length (generateRecommendations (new_engine cy wl) cands limit) =
    Nat.min (Z.to_nat limit)
      (length (filter (fun c => negb (in_watchlist wl c) &&
                                Qltb 0.3 (calculateRecommendationScore p c)) cands)) /\
  (forall c, In c cands -> in_watchlist wl c = false ->
     0.3 < calculateRecommendationScore p c ->
     ~ In c (map rec_movie (generateRecommendations (new_engine cy wl) cands limit)) ->
     forall r, In r (generateRecommendations (new_engine cy wl) cands limit) ->
       calculateRecommendationScore p c <= rec_score r).
Proof.
  rewrite (generateRecommendations_personalized cy wl cands limit p Hp).
  rewrite js_slice0_nonneg by exact Hlim.
  set (SC := scored_candidates p wl cands).
  set (S := sort_desc rec_score SC).
  split; [|split].
  - apply firstn_sorted. apply (sort_desc_sorted rec_score).
  - rewrite length_firstn. unfold S. rewrite (Permutation_length (sort_desc_perm _ _)).
    unfold SC. rewrite scored_candidates_length_filter. reflexivity.
  - intros c Hc Hw Hs Hnot r Hr.
    set (rc := mkRec c (calculateRecommendationScore p c) (generateReasons p c)
                     (determineCategory c (generateReasons p c))).
    assert (HrcS : In rc S).
    { apply (Permutation_in _ (Permutation_sym (sort_desc_perm _ _))).
      apply in_scored_candidates. exists c. auto. }
    assert (Hrest : In rc (skipn (Z.to_nat limit) S)).
    { rewrite <- (firstn_skipn (Z.to_nat limit) S) in HrcS.
      apply in_app_or in HrcS. destruct HrcS as [H|H]; [|exact H].
      exfalso. apply Hnot. apply in_map_iff. exists rc. split; [reflexivity | exact H]. }
    pose proof (sort_desc_strongly_sorted rec_score SC) as Hss. fold S in Hss.
    rewrite <- (firstn_skipn (Z.to_nat limit) S) in Hss.
    exact (StronglySorted_app_rel _ _ _ Hss r rc Hr Hrest).
Qed.

Lemma personalized_top_scores_witness :
  exists p, analyzePreferences 2026 [saved_action] = Some p /\
  length (generateRecommendations (new_engine 2026 [saved_action]) [cand_action] 1) =
    Nat.min 1 (length (filter (fun c => negb (in_watchlist [saved_action] c) &&
                 Qltb 0.3 (calculateRecommendationScore p c)) [cand_action])).
Proof.
  eexists. split; [reflexivity|].
  exact (proj1 (proj2 (personalized_top_scores 2026 [saved_action] [cand_action] 1 _
                         eq_refl ltac:(lia)))).
Defined.

(** ** Reasons *)

Lemma in_matching_genres (p : UserPreferences) (mv : movie) (gp : genre_pref) :
  In gp (matching_genres p mv) <->
  exists g, In g (genre_ids mv) /\ find_genre p g = Some gp.
Proof.
  unfold matching_genres. rewrite in_flat_map. split.
  - intros (g & Hg & Hin). exists g. split; [exact Hg|].
    destruct (find_genre p g); [|destruct Hin]. destruct Hin as [<-|[]]. reflexivity.
  - intros (g & Hg & E). exists g. split; [exact Hg|]. rewrite E. now left.
Qed.

Lemma sort_desc_head {A} (key : A -> Q) (l : list A) (x : A) (rest : list A) :
  sort_desc key l = x :: rest -> In x l /\ forall y, In y l -> key y <= key x.
Proof.
  intros E. pose proof (sort_desc_perm key l) as Hp. rewrite E in Hp.
  split; [apply (Permutation_in _ Hp); now left|].
  intros y Hy. pose proof (sort_desc_strongly_sorted key l) as Hs. rewrite E in Hs.
  apply (Permutation_in _ (Permutation_sym Hp)) in Hy.
  destruct Hy as [<-|Hy]; [apply Qle_refl|].
  inversion Hs as [|? ? _ Hall]; subst. rewrite Forall_forall in Hall.
  exact (Hall y Hy).
Qed.

Lemma sort_desc_nil {A} (key : A -> Q) (l : list A) :
  sort_desc key l = [] -> l = [].
Proof.
  intros E. pose proof (Permutation_length (sort_desc_perm key l)) as H.
  rewrite E in H. destruct l; [reflexivity | discriminate].
Qed.


Lemma generateReasons_parts (p : UserPreferences) (mv : movie) :
  generateReasons p mv = (genre_reasons p mv ++ rating_reasons p mv)%list.
Proof.
  unfold generateReasons. fold (matching_genres p mv).
  fold (genre_reasons p mv). fold (rating_reasons p mv).
  apply firstn_all2.
  unfold genre_reasons, rating_reasons.
  destruct (sort_desc _ _), (vote_average mv) as [v|];
    try destruct (_ && _); simpl; lia.
Qed.

(** [generateReasons] gives at most two reasons: a genre reason exactly
    when one of the movie's genre ids is a favourite genre, with the
    largest weight among those genres as its confidence, and a rating
    reason exactly when the rating is non-zero and at least the band's
    minimum, with confidence [min(rating / 10, 1)]. *)
Theorem generateReasons_spec (p : UserPreferences) (mv : movie) :
  (length (generateReasons p mv) <= 2)%nat /\
  (forall r, In r (generateReasons p mv) -> r_type r = r_genre \/ r_type r = r_rating) /\
  ((exists r, In r (generateReasons p mv) /\ r_type r = r_genre) <->
   exists g gp, In g (genre_ids mv) /\ find_genre p g = Some gp) /\
  (forall r, In r (generateReasons p mv) -> r_type r = r_genre ->
     (exists g gp, In g (genre_ids mv) /\ find_genre p g = Some gp /\
                   confidence r = gp_weight gp) /\
     (forall g gp, In g (genre_ids mv) -> find_genre p g = Some gp ->
                   gp_weight gp <= confidence r)) /\
  ((exists r, In r (generateReasons p mv) /\ r_type r = r_rating) <->
   exists v, vote_average mv = Some v /\ ~ v == 0 /\ rating_min p <= v) /\
  (forall r, In r (generateReasons p mv) -> r_type r = r_rating ->
     exists v, vote_average mv = Some v /\ confidence r = Qmin (v / 10) 1).
Proof.
  rewrite generateReasons_parts.
  assert (HG : forall r, In r (genre_reasons p mv) ->
             r_type r = r_genre /\
             (exists g gp, In g (genre_ids mv) /\ find_genre p g = Some gp /\
                           confidence r = gp_weight gp) /\
             (forall g gp, In g (genre_ids mv) -> find_genre p g = Some gp ->
                           gp_weight gp <= confidence r)).
  { intros r Hr. unfold genre_reasons in Hr.
    destruct (sort_desc gp_weight (matching_genres p mv)) as [|top rest] eqn:E;
      [destruct Hr|].
    destruct Hr as [<-|[]]. apply sort_desc_head in E. destruct E as [Htop Hmax].
    simpl. split; [reflexivity|]. split.
    - apply in_matching_genres in Htop. destruct Htop as (g & Hg & Hf).
      exists g, top. auto.
    - intros g gp Hg Hf. apply Hmax. apply in_matching_genres. eauto. }
  assert (HR : forall r, In r (rating_reasons p mv) ->
             r_type r = r_rating /\
             exists v, vote_average mv = Some v /\ ~ v == 0 /\ rating_min p <= v /\
                       confidence r = Qmin (v / 10) 1).
  { intros r Hr. unfold rating_reasons in Hr.
    destruct (vote_average mv) as [v|]; [|destruct Hr].
    destruct (truthy v && Qle_bool (rating_min p) v) eqn:E; [|destruct Hr].
    destruct Hr as [<-|[]]. apply andb_true_iff in E as [Et Em].
    split; [reflexivity|]. exists v. split; [reflexivity|].
    split; [|split; [apply Qle_bool_iff; exact Em | reflexivity]].
    unfold truthy in Et. apply negb_true_iff in Et. intros Hv.
    apply Qeq_bool_iff in Hv. congruence. }
  assert (HGlen : (length (genre_reasons p mv) <= 1)%nat)
    by (unfold genre_reasons; destruct (sort_desc _ _); simpl; lia).
  assert (HRlen : (length (rating_reasons p mv) <= 1)%nat)
    by (unfold rating_reasons; destruct (vote_average mv); try destruct (_ && _);
        simpl; lia).
  split; [rewrite length_app; lia|].
  split; [|split; [|split; [|split]]].
  - intros r Hr. apply in_app_or in Hr. destruct Hr as [Hr|Hr];
      [left; apply (HG r Hr) | right; apply (HR r Hr)].
  - split.
    + intros (r & Hr & Ht). apply in_app_or in Hr. destruct Hr as [Hr|Hr].
      * destruct (HG r Hr) as (_ & (g & gp & Hg & Hf & _) & _). eauto.
      * rewrite (proj1 (HR r Hr)) in Ht. discriminate.
    + intros (g & gp & Hg & Hf).
      unfold genre_reasons.
      destruct (sort_desc gp_weight (matching_genres p mv)) as [|top rest] eqn:E.
      * apply sort_desc_nil in E. exfalso.
        assert (Hin : In gp (matching_genres p mv))
          by (apply in_matching_genres; eauto).
        rewrite E in Hin. destruct Hin.
      * eexists. split; [apply in_or_app; left; now left | reflexivity].
  - intros r Hr Ht. apply in_app_or in Hr. destruct Hr as [Hr|Hr].
    + apply (HG r Hr).
    + rewrite (proj1 (HR r Hr)) in Ht. discriminate.
  - split.
    + intros (r & Hr & Ht). apply in_app_or in Hr. destruct Hr as [Hr|Hr].
      * rewrite (proj1 (HG r Hr)) in Ht. discriminate.
      * destruct (HR r Hr) as (_ & v & Hv & Hz & Hm & _). eauto.
    + intros (v & Hv & Hz & Hm). unfold rating_reasons. rewrite Hv.
      assert (E : truthy v && Qle_bool (rating_min p) v = true).
      { apply andb_true_iff. split; [|apply Qle_bool_iff; exact Hm].
        unfold truthy. apply negb_true_iff.
        destruct (Qeq_bool v 0) eqn:Ev; [|reflexivity].
        apply Qeq_bool_iff in Ev. contradiction. }
      rewrite E. eexists. split; [apply in_or_app; right; now left | reflexivity].
  - intros r Hr Ht. apply in_app_or in Hr. destruct Hr as [Hr|Hr].
    + rewrite (proj1 (HG r Hr)) in Ht. discriminate.
    + destruct (HR r Hr) as (_ & v & Hv & _ & _ & Hc). eauto.
Qed.

(** ** Genre weights and the score ceiling *)

Lemma occurrences_le_length (wl : list movie) (g : N) :
  (forall w, In w wl -> NoDup (genre_ids w)) ->
  (genre_occurrences wl g <= length wl)%nat.
Proof.
  unfold genre_occurrences, all_genres. intros Hn.
  induction wl as [|w wl IH]; simpl; [lia|].
  rewrite count_occ_app.
  assert (H1 : (count_occ N.eq_dec (genre_ids w) g <= 1)%nat)
    by (apply (NoDup_count_occ N.eq_dec); apply Hn; now left).
  assert (H2 : (count_occ N.eq_dec (flat_map genre_ids wl) g <= length wl)%nat)
    by (apply IH; intros w' Hw'; apply Hn; now right).
  lia.
Qed.

Lemma nat_Q_le (a b : nat) : (a <= b)%nat -> nat_Q a <= nat_Q b.
Proof. intros H. unfold nat_Q. rewrite <- Zle_Qle. lia. Qed.

Lemma nat_Q_add (a b : nat) : nat_Q (a + b) == nat_Q a + nat_Q b.
Proof. unfold nat_Q. rewrite Nat2Z.inj_add, inject_Z_plus. reflexivity. Qed.

Lemma rating_total_le (wl : list movie) (g : N) :
  (forall w, In w wl -> or0 (vote_average w) <= 10) ->
  genre_rating_total wl g <= 10 * nat_Q (genre_occurrences wl g).
Proof.
  unfold genre_occurrences, genre_rating_total, all_genres. intros Hr.
  induction wl as [|w wl IH]; simpl; [discriminate|].
  rewrite count_occ_app, nat_Q_add.
  assert (Hw : or0 (vote_average w) <= 10) by (apply Hr; now left).
  assert (IH' := IH (fun w' Hw' => Hr w' (or_intror Hw'))).
  set (c := nat_Q (count_occ N.eq_dec (genre_ids w) g)) in *.
  set (o := nat_Q (count_occ N.eq_dec (flat_map genre_ids wl) g)) in *.
  assert (Hc : 0 <= c) by apply nat_Q_nonneg.
  setoid_replace (10 * (c + o)) with (c * 10 + 10 * o) by ring.
  apply Qplus_le_compat; [|exact IH'].
  rewrite Qmult_comm, (Qmult_comm c). apply Qmult_le_compat_r; assumption.
Qed.

(** The spec's genre weight is at most 1 when ratings are at most 10 and no
    saved item lists a genre twice. *)
Lemma spec_genre_weight_le_1 (wl : list movie) (g : N) :
  (forall w, In w wl -> NoDup (genre_ids w)) ->
  (forall w, In w wl -> or0 (vote_average w) <= 10) ->
  spec_genre_weight wl g <= 1.
Proof.
  intros Hn Hr. unfold spec_genre_weight.
  pose proof (occurrences_le_length wl g Hn) as Hol.
  pose proof (rating_total_le wl g Hr) as Ht.
  set (t := genre_rating_total wl g) in *.
  destruct (genre_occurrences wl g) as [|o] eqn:Eo.
  - unfold nat_Q at 1. simpl. unfold Qdiv. rewrite !Qmult_0_l. discriminate.
  - assert (Ho : 0 < nat_Q (S o)) by (unfold nat_Q, Qlt; simpl; lia).
    assert (Hlen : nat_Q (S o) <= nat_Q (length wl)) by (apply nat_Q_le; exact Hol).
    assert (Hn0 : 0 < nat_Q (length wl)) by (eapply Qlt_le_trans; eassumption).
    setoid_replace (nat_Q (S o) / nat_Q (length wl) * (t / nat_Q (S o) / 10))
      with (t / (10 * nat_Q (length wl))).
    2:{ field. split; [apply Qnot_eq_sym, Qlt_not_eq; exact Hn0|].
        apply Qnot_eq_sym, Qlt_not_eq; exact Ho. }
    apply Qle_shift_div_r.
    + apply (Qmult_lt_0_compat 10); [reflexivity|exact Hn0].
    + rewrite Qmult_1_l. eapply Qle_trans; [exact Ht|].
      apply Qmult_le_l; [reflexivity|exact Hlen].
Qed.

Lemma favoriteGenres_weight_spec (wl : list movie) (gp : genre_pref) :
  In gp (favoriteGenres wl) -> gp_weight gp == spec_genre_weight wl (gp_id gp).
Proof.
  intros Hgp. unfold favoriteGenres in Hgp.
  apply in_firstn_in in Hgp.
  apply (Permutation_in _ (sort_desc_perm _ _)) in Hgp.
  apply in_map_iff in Hgp. destruct Hgp as ([k st] & <- & He). simpl.
  exact (proj2 (genreCount_entry_weight wl k st He)).
Qed.

Lemma fold_sum_le {A} (f : A -> Q) (l : list A) (a : Q) :
  (forall x, In x l -> f x <= 1) ->
  fold_left (fun s x => s + f x) l a <= a + nat_Q (length l).
Proof.
  revert a. induction l as [|x l IH]; simpl; intros a Hf.
  - unfold nat_Q. simpl. rewrite Qplus_0_r. apply Qle_refl.
  - eapply Qle_trans; [apply IH; intros y Hy; apply Hf; now right|].
    setoid_replace (nat_Q (S (length l))) with (1 + nat_Q (length l))
      by (unfold nat_Q; rewrite Nat2Z.inj_succ, <- Z.add_1_l, inject_Z_plus; reflexivity).
    rewrite Qplus_assoc. apply Qplus_le_compat; [|apply Qle_refl].
    apply Qplus_le_compat; [apply Qle_refl | apply Hf; now left].
Qed.

Lemma genre_term_le (p : UserPreferences) (mv : movie) :
  (forall gp, In gp (favorite_genres p) -> gp_weight gp <= 1) ->
  genre_term p mv <= 0.4.
Proof.
  intros Hw. unfold genre_term. destruct (genre_ids mv) as [|g gs]; [discriminate|].
  set (f := fun g => match find_genre p g with Some gp => gp_weight gp | None => 0 end).
  assert (Hs : fold_left (fun sum g => sum + f g) (g :: gs) 0 <= nat_Q (length (g :: gs))).
  { eapply Qle_trans; [apply fold_sum_le|rewrite Qplus_0_l; apply Qle_refl].
    intros x _. unfold f. destruct (find_genre p x) as [gp|] eqn:E; [|discriminate].
    apply Hw. exact (proj1 (find_some _ _ E)). }
  assert (Hn : 0 < nat_Q (length (g :: gs))) by (unfold nat_Q, Qlt; simpl; lia).
  unfold genreWeight. rewrite (Qmult_comm _ 0.4).
  setoid_replace 0.4 with (0.4 * 1) at 2 by reflexivity.
  apply Qmult_le_l; [reflexivity|].
  apply Qle_shift_div_r; [exact Hn|]. rewrite Qmult_1_l. exact Hs.
Qed.

Lemma rating_term_le (p : UserPreferences) (mv : movie) : rating_term p mv <= 0.25.
Proof.
  unfold rating_term. destruct (vote_average mv) as [v|]; [|discriminate].
  destruct (_ && _ && _); [|discriminate].
  unfold ratingWeight. rewrite Qmult_comm.
  setoid_replace 0.25 with (0.25 * 1) at 2 by reflexivity.
  apply Qmult_le_l; [reflexivity | apply Q.le_min_r].
Qed.

Lemma year_term_le (p : UserPreferences) (mv : movie) : year_term p mv <= 0.15.
Proof.
  unfold year_term. destruct (release_year mv); [|discriminate].
  destruct (_ && _); discriminate.
Qed.

Lemma popularity_term_le (mv : movie) : popularity_term mv <= 0.1.
Proof.
  unfold popularity_term. destruct (popularity mv) as [q|]; [|discriminate].
  destruct (truthy q); [|discriminate].
  unfold popularityWeight. rewrite Qmult_comm.
  setoid_replace 0.1 with (0.1 * 1) at 2 by reflexivity.
  apply Qmult_le_l; [reflexivity | apply Q.le_min_r].
Qed.

Lemma people_term_no_people (p : UserPreferences) (mv : movie) :
  actors mv = None -> director mv = None -> people_term p mv == 0.
Proof.
  intros Ha Hd. unfold people_term, actor_score, director_score.
  rewrite Ha, Hd. reflexivity.
Qed.

(** Without actors or director, a score under weights at most 1 is at most
    0.9: the people sub-score is 0. *)
Lemma score_no_people_le (p : UserPreferences) (mv : movie) :
  (forall gp, In gp (favorite_genres p) -> gp_weight gp <= 1) ->
  actors mv = None -> director mv = None ->
  calculateRecommendationScore p mv <= 0.9.
Proof.
  intros Hw Ha Hd. unfold calculateRecommendationScore.
  eapply Qle_trans; [apply Q.le_min_l|].
  rewrite maxScore_one. apply Qle_shift_div_r; [reflexivity|].
  rewrite (people_term_no_people p mv Ha Hd).
  pose proof (genre_term_le p mv Hw). pose proof (rating_term_le p mv).
  pose proof (year_term_le p mv). pose proof (popularity_term_le mv).
  apply (Qle_trans _ (0 + 0.4 + 0.25 + 0.15 + 0.1 + 0)); [|discriminate].
  repeat apply Qplus_le_compat; first [apply Qle_refl | assumption].
Qed.

(** ** Candidate collection *)

Lemma find_app {A} (f : A -> bool) (l1 l2 : list A) :
  find f (l1 ++ l2) = match find f l1 with Some x => Some x | None => find f l2 end.
Proof.
  induction l1 as [|x l1 IH]; simpl; [reflexivity|].
  destruct (f x); [reflexivity | exact IH].
Qed.

Lemma existsb_id_in (acc : list movie) (k : Z) :
  existsb (fun m => (id m =? k)%Z) acc = true <-> In k (map id acc).
Proof.
  rewrite existsb_exists, in_map_iff. split.
  - intros (m & Hm & E). apply Z.eqb_eq in E. now exists m.
  - intros (m & <- & Hm). exists m. split; [exact Hm | apply Z.eqb_refl].
Qed.

(** What the deduplicating [reduce] keeps after reading [P]: ids without
    repetition, exactly the ids of [P], each built from the first result of
    [P] with that id. *)
Definition unique_inv (P : list tmdb_result) (acc : list movie) : Prop :=
  NoDup (map id acc) /\
  (forall k, In k (map id acc) <-> In k (map tr_id P)) /\
  (forall c, In c acc -> exists r,
     find (fun r => (tr_id r =? id c)%Z) P = Some r /\ c = candidate_of r).

Lemma unique_inv_step (P : list tmdb_result) (acc : list movie) (r : tmdb_result) :
  unique_inv P acc ->
  unique_inv (P ++ [r])
    (if existsb (fun m => (id m =? tr_id r)%Z) acc then acc
     else (acc ++ [candidate_of r])%list).
Proof.
  intros (Hn & Hk & Hc).
  destruct (existsb (fun m => (id m =? tr_id r)%Z) acc) eqn:E.
  - apply existsb_id_in in E. split; [exact Hn|split].
    + intros k. rewrite map_app, in_app_iff, <- Hk. simpl.
      split; [now left|]. intros [H|[<-|[]]]; [exact H|exact E].
    + intros c Hin. destruct (Hc c Hin) as (r0 & Hf & ->).
      exists r0. rewrite find_app, Hf. split; reflexivity.
  - assert (Hr : ~ In (tr_id r) (map id acc))
      by (intros H; apply existsb_id_in in H; congruence).
    split; [|split].
    + rewrite map_app. apply NoDup_snoc; assumption.
    + intros k. rewrite !map_app, !in_app_iff, Hk. reflexivity.
    + intros c Hin. apply in_app_or in Hin. destruct Hin as [Hin|[<-|[]]].
      * destruct (Hc c Hin) as (r0 & Hf & ->).
        exists r0. rewrite find_app, Hf. split; reflexivity.
      * exists r. rewrite find_app. simpl.
        destruct (find _ P) as [r0|] eqn:Hf.
        -- exfalso. apply Hr, Hk. apply find_some in Hf. destruct Hf as [Hin Heq].
           apply Z.eqb_eq in Heq. simpl in Heq. rewrite <- Heq. now apply in_map.
        -- rewrite Z.eqb_refl. split; reflexivity.
Qed.

Lemma unique_inv_fold (l P : list tmdb_result) (acc : list movie) :
  unique_inv P acc ->
  unique_inv (P ++ l)
    (fold_left (fun acc r =>
                  if existsb (fun m => (id m =? tr_id r)%Z) acc then acc
                  else (acc ++ [candidate_of r])%list) l acc).
Proof.
  revert P acc. induction l as [|r l IH]; simpl; intros P acc H.
  - rewrite app_nil_r. exact H.
  - replace (P ++ r :: l)%list with ((P ++ [r]) ++ l)%list
      by (rewrite <- app_assoc; reflexivity).
    apply IH. now apply unique_inv_step.
Qed.

Lemma uniqueCandidates_inv (l : list tmdb_result) : unique_inv l (uniqueCandidates l).
Proof.
  apply (unique_inv_fold l []). split; [constructor|split].
  - intros k. simpl. reflexivity.
  - intros c [].
Qed.

Lemma uniqueCandidates_spec_aux (l : list tmdb_result) :
  NoDup (map id (uniqueCandidates l)) /\
  (forall k, In k (map id (uniqueCandidates l)) <-> In k (map tr_id l)) /\
  (forall c, In c (uniqueCandidates l) -> exists r,
     find (fun r => (tr_id r =? id c)%Z) l = Some r /\ c = candidate_of r /\
     media_type c = None /\ actors c = None /\ director c = None).
Proof.
  destruct (uniqueCandidates_inv l) as (Hn & Hk & Hc).
  split; [exact Hn|split; [exact Hk|]].
  intros c Hin. destruct (Hc c Hin) as (r & Hf & ->).
  exists r. repeat split; assumption || reflexivity.
Qed.

(** The deduplication keeps one candidate per id of the input, with no id
    twice, built from the first result carrying that id; candidates have no
    kind, actors or director. *)
Theorem uniqueCandidates_spec (l : list tmdb_result) :
  NoDup (map id (uniqueCandidates l)) /\
  (forall k, In k (map id (uniqueCandidates l)) <-> In k (map tr_id l)) /\
  (forall c, In c (uniqueCandidates l) -> exists r,
     find (fun r => (tr_id r =? id c)%Z) l = Some r /\ c = candidate_of r /\
     media_type c = None /\ actors c = None /\ director c = None).
Proof. exact (uniqueCandidates_spec_aux l). Qed.

(** The results a candidate may come from: the three lists and the
    "similar" lists of the first five saved items. *)
Definition candidate_source (trendingR popularR topRatedR : fetch_result)
    (similar : Z -> fetch_result) (watchlistMovies : list movie)
    (r : tmdb_result) : Prop :=
  In r (fetched_results trendingR) \/ In r (fetched_results popularR) \/
  In r (fetched_results topRatedR) \/
  exists m, In m (firstn 5 watchlistMovies) /\ In r (fetched_results (similar (id m))).

Lemma candidate_source_in (trendingR popularR topRatedR : fetch_result)
    (similar : Z -> fetch_result) (wl : list movie) (r : tmdb_result) :
  candidate_source trendingR popularR topRatedR similar wl r <->
  In r (fetched_results trendingR ++ fetched_results popularR ++
        fetched_results topRatedR ++
        flat_map (fun m => fetched_results (similar (id m))) (firstn 5 wl))%list.
Proof.
  unfold candidate_source. rewrite !in_app_iff, in_flat_map. reflexivity.
Qed.

Lemma getCandidateMovies_spec_aux (trendingR popularR topRatedR : fetch_result)
    (similar : Z -> fetch_result) (wl : list movie) :
  let C := getCandidateMovies trendingR popularR topRatedR similar wl in
  ((fetch_throws trendingR || fetch_throws popularR || fetch_throws topRatedR)%bool
     = true -> C = []) /\
  NoDup (map id C) /\
  (forall c, In c C -> exists r, c = candidate_of r /\
     candidate_source trendingR popularR topRatedR similar wl r /\
     media_type c = None /\ actors c = None /\ director c = None) /\
  ((fetch_throws trendingR || fetch_throws popularR || fetch_throws topRatedR)%bool
     = false ->
   forall r, candidate_source trendingR popularR topRatedR similar wl r ->
   exists c, In c C /\ id c = tr_id r).
Proof.
  intros C. unfold C, getCandidateMovies.
  destruct (fetch_throws trendingR || fetch_throws popularR || fetch_throws topRatedR)%bool.
  - split; [reflexivity|]. split; [constructor|]. split; [intros c []|].
    intros H. discriminate.
  - set (l := (fetched_results trendingR ++ _)%list).
    destruct (uniqueCandidates_spec_aux l) as (Hn & Hk & Hc).
    split; [discriminate|]. split; [exact Hn|]. split.
    + intros c Hin. destruct (Hc c Hin) as (r & Hf & -> & Hrest).
      exists r. split; [reflexivity|]. split; [|exact Hrest].
      apply candidate_source_in. exact (proj1 (find_some _ _ Hf)).
    + intros _ r Hr. apply candidate_source_in in Hr.
      assert (Hin : In (tr_id r) (map id (uniqueCandidates l)))
        by (apply Hk, in_map, Hr).
      apply in_map_iff in Hin. destruct Hin as (c & Hc' & Hin).
      now exists c.
Qed.

(** [getCandidateMovies] returns [[]] when one of the three list fetches
    throws; otherwise one candidate per id found in the fetched lists (a
    failed or throwing "similar" fetch contributes nothing), no id twice,
    each built from a fetched result and without kind, actors or
    director. *)
Theorem getCandidateMovies_spec (trendingR popularR topRatedR : fetch_result)
    (similar : Z -> fetch_result) (wl : list movie) :
  let C := getCandidateMovies trendingR popularR topRatedR similar wl in
  ((fetch_throws trendingR || fetch_throws popularR || fetch_throws topRatedR)%bool
     = true -> C = []) /\
  NoDup (map id C) /\
  (forall c, In c C -> exists r, c = candidate_of r /\
     candidate_source trendingR popularR topRatedR similar wl r /\
     media_type c = None /\ actors c = None /\ director c = None) /\
  ((fetch_throws trendingR || fetch_throws popularR || fetch_throws topRatedR)%bool
     = false ->
   forall r, candidate_source trendingR popularR topRatedR similar wl r ->
   exists c, In c C /\ id c = tr_id r).
Proof. exact (getCandidateMovies_spec_aux trendingR popularR topRatedR similar wl). Qed.

(** ** The recommendations route *)

Lemma in_validWatchlistMovies (details : Z -> option movie) (ids : list Z) (w : movie) :
  In w (validWatchlistMovies details ids) -> exists i, In i (firstn 50 ids) /\ details i = Some w.
Proof.
  unfold validWatchlistMovies. rewrite in_flat_map. intros (i & Hi & Hw).
  exists i. split; [exact Hi|]. destruct (details i); [|destruct Hw].
  destruct Hw as [->|[]]. reflexivity.
Qed.

(** With saved items whose genre lists have no repeated id and whose
    ratings are at most 10, every recommendation of the personalised route
    scores above 0.3 and at most 0.9: its candidates carry no actors or
    director, so the people sub-score is always 0. *)
Theorem api_personalized_score_range (cy : Z) (ids : list Z)
    (details : Z -> option movie) (trendingR popularR topRatedR : fetch_result)
    (similar : Z -> fetch_result) (limitNum : Z) (r : Recommendation)
    (Hdet : forall i m, details i = Some m ->
              NoDup (genre_ids m) /\ or0 (vote_average m) <= 10)
    (Hne : validWatchlistMovies details ids <> [])
    (Hin : In r (allRecommendations cy details ids trendingR popularR topRatedR
                   similar limitNum)) :
  0.3 < rec_score r /\ rec_score r <= 0.9.
Proof.
  unfold allRecommendations in Hin.
  set (wl := validWatchlistMovies details ids) in *.
  assert (Hwl : forall w, In w wl -> NoDup (genre_ids w) /\ or0 (vote_average w) <= 10).
  { intros w Hw. destruct (in_validWatchlistMovies details ids w Hw) as (i & _ & Hi).
    exact (Hdet i w Hi). }
  destruct (analyzePreferences cy wl) as [p|] eqn:Hp.
  2:{ destruct wl; [contradiction | discriminate]. }
  rewrite (generateRecommendations_personalized cy wl _ _ p Hp) in Hin.
  apply js_slice0_in in Hin.
  apply (Permutation_in _ (sort_desc_perm _ _)) in Hin.
  apply in_scored_candidates in Hin.
  destruct Hin as (mv & Hmv & _ & Hgt & ->). simpl.
  split; [exact Hgt|].
  destruct (proj1 (proj2 (proj2 (getCandidateMovies_spec_aux trendingR popularR topRatedR
              similar wl))) mv Hmv) as (r0 & _ & _ & _ & Ha & Hd).
  apply score_no_people_le; [|exact Ha|exact Hd].
  intros gp Hgp. rewrite (favorite_genres_of cy wl p Hp) in Hgp.
  rewrite (favoriteGenres_weight_spec wl gp Hgp).
  apply spec_genre_weight_le_1; intros w Hw; apply (Hwl w Hw).
Qed.

Lemma api_personalized_score_range_witness :
  let recs := allRecommendations 2026 example_details [1%Z] example_trending
                FetchNotOk FetchNotOk (fun _ => FetchNotOk) 20 in
  recs <> [] /\
  0.3 < rec_score (hd (mkRec saved_action 0 [] trending) recs) /\
  rec_score (hd (mkRec saved_action 0 [] trending) recs) <= 0.9.
Proof.
  intros recs. split; [vm_compute; discriminate|].
  apply (api_personalized_score_range 2026 [1%Z] example_details example_trending
           FetchNotOk FetchNotOk (fun _ => FetchNotOk) 20).
  - intros i m. unfold example_details. destruct (i =? 1)%Z; [|discriminate].
    intros H. injection H as <-. split; [repeat constructor; intros []|discriminate].
  - vm_compute. discriminate.
  - vm_compute. left. reflexivity.
Defined.

Lemma firstn_add_skipn {A} (n m : nat) (l : list A) :
  firstn (n + m) l = (firstn n l ++ firstn m (skipn n l))%list.
Proof.
  revert l. induction n as [|n IH]; intros l; [reflexivity|].
  destruct l as [|x l]; simpl; [now destruct m|]. f_equal. apply IH.
Qed.

(** [slice(s, s + L)] for [s, L >= 0] is the window of [L] items from
    [s]. *)
Lemma js_slice_window {A} (l : list A) (s L : Z) :
  (0 <= s)%Z -> (0 <= L)%Z ->
  js_slice l s (s + L) = firstn (Z.to_nat L) (skipn (Z.to_nat s) l).
Proof.
  intros Hs HL. unfold js_slice, js_rel.
  destruct (Z.ltb_spec s 0); [lia|]. destruct (Z.ltb_spec (s + L) 0); [lia|].
  set (n := length l).
  destruct (Z.le_gt_cases s (Z.of_nat n)) as [Hle|Hgt].
  - rewrite (Z.min_l s) by exact Hle.
    destruct (Z.le_gt_cases (s + L) (Z.of_nat n)) as [Hle'|Hgt'].
    + rewrite (Z.min_l (s + L)) by exact Hle'. f_equal. lia.
    + rewrite (Z.min_r (s + L)) by lia.
      rewrite firstn_all2, firstn_all2; [reflexivity| |];
        rewrite length_skipn; fold n; lia.
  - rewrite !Z.min_r by lia. rewrite Z.sub_diag. simpl.
    rewrite skipn_all2; [now destruct (Z.to_nat L)|]. fold n. lia.
Qed.

Lemma js_slice_length_le {A} (l : list A) (s L : Z) :
  (0 <= L)%Z -> (Z.of_nat (length (js_slice l s (s + L))) <= L)%Z.
Proof.
  intros HL. unfold js_slice, js_rel. rewrite length_firstn.
  set (n := Z.of_nat (length l)).
  assert (Hn : (0 <= n)%Z) by lia.
  destruct (Z.ltb_spec s 0), (Z.ltb_spec (s + L) 0); lia.
Qed.

Lemma pages_concat {A} (l : list A) (L n : nat) :
  concat (map (fun k => firstn L (skipn ((k - 1) * L) l)) (seq 1 n)) = firstn (n * L) l.
Proof.
  induction n as [|n IH]; [reflexivity|].
  rewrite seq_S, map_app, concat_app, IH. cbn [map concat]. rewrite app_nil_r.
  replace (1 + n - 1)%nat with n by lia.
  replace (S n * L)%nat with (n * L + L)%nat by lia.
  symmetry. apply firstn_add_skipn.
Qed.

Lemma ceiling_cover (n : nat) (L : Z) :
  (1 <= L)%Z ->
  let c := Qceiling (nat_Q n / inject_Z L) in
  (0 <= c)%Z /\ (Z.of_nat n <= c * L)%Z.
Proof.
  intros HL c.
  assert (HLq : 0 < inject_Z L) by (unfold Qlt; simpl; lia).
  assert (Hx : 0 <= nat_Q n / inject_Z L)
    by (apply Qdiv_nonneg; [apply nat_Q_nonneg | apply Qlt_le_weak, HLq]).
  split.
  - change 0%Z with (Qceiling 0). apply Qceiling_resp_le. exact Hx.
  - assert (Hc : nat_Q n / inject_Z L <= inject_Z c) by apply Qle_ceiling.
    apply (Qmult_le_r _ _ (inject_Z L) HLq) in Hc.
    setoid_replace (nat_Q n / inject_Z L * inject_Z L) with (nat_Q n) in Hc
      by (field; apply Qnot_eq_sym, Qlt_not_eq, HLq).
    rewrite Zle_Qle, inject_Z_mult. exact Hc.
Qed.

(** With a limit [L >= 1], page [pg >= 1] of the route is the window of
    [L] filtered recommendations from [(pg - 1) * L]; no page holds more
    than [L] items; pages [1 .. totalPages] put back together give the
    filtered list, and every page past [totalPages] is empty. *)
Theorem recommendations_pagination (cy : Z) (ids : list Z) (cat : option string)
    (L : Z) (details : Z -> option movie) (trendingR popularR topRatedR : fetch_result)
    (similar : Z -> fetch_result) (HL : (1 <= L)%Z) :
  let resp := fun pg => recommendationsResponse cy ids cat (Some L) (Some pg) details
                          trendingR popularR topRatedR similar in
  let filtered := filterByCategory (match cat with Some c => c | None => "all" end)
                    (allRecommendations cy details ids trendingR popularR topRatedR
                       similar L) in
  (forall pg, (1 <= pg)%Z ->
     resp_recommendations (resp pg) =
     firstn (Z.to_nat L) (skipn (Z.to_nat ((pg - 1) * L)) filtered)) /\
  (forall pg, (Z.of_nat (length (resp_recommendations (resp pg))) <= L)%Z) /\
  concat (map (fun k => resp_recommendations (resp (Z.of_nat k)))
              (seq 1 (Z.to_nat (resp_totalPages (resp 1%Z))))) = filtered /\
  (forall pg, (resp_totalPages (resp 1%Z) < pg)%Z -> resp_recommendations (resp pg) = []).
Proof.
  intros resp filtered.
  assert (HpL : parse_or 20 (Some L) = L) by (simpl; destruct (Z.eqb_spec L 0); lia).
  assert (Hr : forall pg, resp_recommendations (resp pg) =
            js_slice filtered ((parse_or 1 (Some pg) - 1) * L)
                     ((parse_or 1 (Some pg) - 1) * L + L)).
  { intros pg. unfold resp, recommendationsResponse. cbv zeta. rewrite HpL. reflexivity. }
  assert (Ht : resp_totalPages (resp 1%Z) =
               Qceiling (nat_Q (length filtered) / inject_Z L)).
  { unfold resp, recommendationsResponse. cbv zeta. rewrite HpL. reflexivity. }
  assert (Hpage : forall pg, (1 <= pg)%Z ->
            resp_recommendations (resp pg) =
            firstn (Z.to_nat L) (skipn (Z.to_nat ((pg - 1) * L)) filtered)).
  { intros pg Hpg. rewrite Hr.
    replace (parse_or 1 (Some pg)) with pg by (simpl; destruct (Z.eqb_spec pg 0); lia).
    apply js_slice_window; nia. }
  destruct (ceiling_cover (length filtered) L HL) as [Hc0 Hcov].
  rewrite <- Ht in Hc0, Hcov.
  set (c := resp_totalPages (resp 1%Z)) in *.
  split; [exact Hpage|]. split; [|split].
  - intros pg. rewrite Hr. apply js_slice_length_le. lia.
  - rewrite (map_ext_in _ (fun k => firstn (Z.to_nat L)
               (skipn ((k - 1) * Z.to_nat L) filtered))).
    + rewrite pages_concat. apply firstn_all2.
      apply Nat2Z.inj_le. rewrite Nat2Z.inj_mul, !Z2Nat.id by lia. lia.
    + intros k Hk. apply in_seq in Hk. rewrite Hpage by lia.
      f_equal. f_equal. rewrite Z2Nat.inj_mul by lia. f_equal. lia.
  - intros pg Hpg. rewrite Hpage by lia.
    rewrite skipn_all2; [now destruct (Z.to_nat L)|].
    apply Nat2Z.inj_le. rewrite Z2Nat.id by nia. nia.
Qed.

Lemma recommendations_pagination_witness :
  (1 <= 1)%Z /\
  resp_recommendations
    (recommendationsResponse 2026 [1%Z] None (Some 1%Z) (Some 5%Z) example_details
       example_trending FetchNotOk FetchNotOk (fun _ => FetchNotOk)) = [].
Proof.
  split; [lia|].
  apply (proj2 (proj2 (proj2 (recommendations_pagination 2026 [1%Z] None 1
           example_details example_trending FetchNotOk FetchNotOk
           (fun _ => FetchNotOk) ltac:(lia))))).
  vm_compute. reflexivity.
Defined.

Lemma category_name_eqb (a c : category) :
  String.eqb (category_name a) (category_name c) = true <-> a = c.
Proof. destruct a, c; simpl; split; congruence. Qed.

Lemma category_name_not_all (c : category) : String.eqb (category_name c) "all" = false.
Proof. destruct c; reflexivity. Qed.

Lemma stat_of_bump (s : CategoryStats) (a c : category) :
  stat_of (bump_category s a) c =
  (stat_of s c + if String.eqb (category_name a) (category_name c) then 1 else 0)%nat.
Proof. destruct a, c; simpl; lia. Qed.

Definition stats_sum (s : CategoryStats) : nat :=
  (n_because_you_watched s + n_genre_match s + n_highly_rated s + n_trending s +
   n_similar_taste s)%nat.

Lemma stats_sum_bump (s : CategoryStats) (a : category) :
  stats_sum (bump_category s a) = S (stats_sum s).
Proof. unfold stats_sum. destruct a; simpl; lia. Qed.

Lemma category_stats_fold (recs : list Recommendation) (s : CategoryStats) (c : category) :
  let s' := fold_left (fun s rec => bump_category s (rec_category rec)) recs s in
  stat_of s' c =
    (stat_of s c + length (filter (fun rec => String.eqb (category_name (rec_category rec))
                                                         (category_name c)) recs))%nat /\
  stats_sum s' = (stats_sum s + length recs)%nat.
Proof.
  revert s. induction recs as [|r recs IH]; intros s; simpl; [split; lia|].
  destruct (IH (bump_category s (rec_category r))) as [H1 H2].
  rewrite H1, H2, stat_of_bump, stats_sum_bump.
  destruct (String.eqb _ _); simpl; split; lia.
Qed.

Lemma getCategoryStats_spec_aux (recs : list Recommendation) :
  (forall c, stat_of (getCategoryStats recs) c =
             length (filterByCategory (category_name c) recs)) /\
  stats_sum (getCategoryStats recs) = length recs.
Proof.
  split.
  - intros c. unfold filterByCategory. rewrite category_name_not_all.
    unfold getCategoryStats. rewrite (proj1 (category_stats_fold recs _ c)).
    destruct c; reflexivity.
  - unfold getCategoryStats.
    rewrite (proj2 (category_stats_fold recs _ because_you_watched)). reflexivity.
Qed.

(** [getCategoryStats] counts, for each category, the recommendations that
    the route's category filter keeps for it, and the five counters add up
    to the number of recommendations. *)
Theorem getCategoryStats_spec (recs : list Recommendation) :
  (forall c, stat_of (getCategoryStats recs) c =
             length (filterByCategory (category_name c) recs)) /\
  stats_sum (getCategoryStats recs) = length recs.
Proof. exact (getCategoryStats_spec_aux recs). Qed.

Lemma generateRecommendations_category (e : engine) (cands : list movie) (limit : Z)
    (r : Recommendation) :
  In r (generateRecommendations e cands limit) -> rec_category r <> because_you_watched.
Proof.
  unfold generateRecommendations.
  destruct (preferences e) as [p|], (watchlist e) as [|w ws];
    try (intros Hin; destruct (in_trending _ _ _ Hin) as (mv & _ & _ & ->); discriminate).
  intros Hin. apply js_slice0_in in Hin.
  apply (Permutation_in _ (sort_desc_perm _ _)) in Hin.
  apply in_scored_candidates in Hin. destruct Hin as (mv & _ & _ & _ & ->). simpl.
  unfold determineCategory.
  repeat match goal with |- context [if ?b then _ else _] => destruct b end;
    discriminate.
Qed.

Lemma generateRecommendations_length (e : engine) (cands : list movie) (limit : Z) :
  (0 <= limit)%Z ->
  (Z.of_nat (length (generateRecommendations e cands limit)) <= limit)%Z.
Proof.
  intros Hl. unfold generateRecommendations.
  destruct (preferences e), (watchlist e);
    try (unfold generateTrendingRecommendations; rewrite length_map);
    apply js_slice0_length; exact Hl.
Qed.

Lemma in_js_slice {A} (l : list A) (s e : Z) (x : A) : In x (js_slice l s e) -> In x l.
Proof.
  unfold js_slice. intros H. apply in_firstn_in in H.
  rewrite <- (firstn_skipn (Z.to_nat (js_rel (Z.of_nat (length l)) s)) l).
  apply in_or_app. now right.
Qed.

Lemma filterByCategory_in (cat : string) (recs : list Recommendation) (r : Recommendation) :
  In r (filterByCategory cat recs) -> In r recs.
Proof.
  unfold filterByCategory. destruct (String.eqb cat "all"); [auto|].
  rewrite filter_In. tauto.
Qed.

Lemma js_slice_nil {A} (s e : Z) : js_slice (@nil A) s e = [].
Proof. unfold js_slice. rewrite skipn_nil. apply firstn_nil. Qed.

(** The route never reports a [because_you_watched] recommendation; for a
    category name, [total] is that category's counter in [categories]; a
    category that is neither ["all"] nor a category name (and
    ["because_you_watched"]) gives an empty page and a total of 0. *)
Theorem recommendations_categories (cy : Z) (ids : list Z) (cat_q : option string)
    (limit_q page_q : option Z) (details : Z -> option movie)
    (trendingR popularR topRatedR : fetch_result) (similar : Z -> fetch_result) :
  let resp := recommendationsResponse cy ids cat_q limit_q page_q details
                trendingR popularR topRatedR similar in
  n_because_you_watched (resp_categories resp) = 0%nat /\
  (forall c, cat_q = Some (category_name c) ->
     resp_total resp = stat_of (resp_categories resp) c) /\
  (forall s, cat_q = Some s -> s <> "all" -> (forall c, s <> category_name c) ->
     resp_total resp = 0%nat /\ resp_recommendations resp = []) /\
  (cat_q = Some "because_you_watched" ->
     resp_total resp = 0%nat /\ resp_recommendations resp = []).
Proof.
  intros resp. unfold resp, recommendationsResponse. cbv zeta. simpl.
  set (limitNum := parse_or 20 limit_q).
  set (allRecs := allRecommendations cy details ids trendingR popularR topRatedR
                    similar limitNum).
  assert (Hnb : forall r, In r allRecs -> rec_category r <> because_you_watched)
    by (intros r; apply generateRecommendations_category).
  assert (Hbyw : filterByCategory "because_you_watched" allRecs = []).
  { unfold filterByCategory. simpl. apply filter_all_false. intros r Hr.
    destruct (String.eqb _ _) eqn:E; [|reflexivity].
    apply (category_name_eqb _ because_you_watched) in E. exfalso. exact (Hnb r Hr E). }
  split; [|split; [|split]].
  - change (n_because_you_watched (getCategoryStats allRecs))
      with (stat_of (getCategoryStats allRecs) because_you_watched).
    rewrite (proj1 (getCategoryStats_spec_aux allRecs)). simpl. rewrite Hbyw. reflexivity.
  - intros c ->. rewrite (proj1 (getCategoryStats_spec_aux allRecs)). reflexivity.
  - intros s -> Hall Hs.
    assert (Hf : filterByCategory s allRecs = []).
    { unfold filterByCategory. destruct (String.eqb_spec s "all"); [contradiction|].
      apply filter_all_false. intros r _.
      destruct (String.eqb_spec (category_name (rec_category r)) s); [|reflexivity].
      exfalso. exact (Hs _ (eq_sym e)). }
    rewrite Hf, js_slice_nil. split; reflexivity.
  - intros ->. rewrite Hbyw, js_slice_nil. split; reflexivity.
Qed.

(** With category ["all"] (or none) and a limit [L >= 1], the route asks
    the engine for [3 * L] recommendations, so [total <= 3 * L] and
    [totalPages <= 3]. *)
Theorem recommendations_all_bound (cy : Z) (ids : list Z) (cat_q : option string)
    (L : Z) (page_q : option Z) (details : Z -> option movie)
    (trendingR popularR topRatedR : fetch_result) (similar : Z -> fetch_result)
    (HL : (1 <= L)%Z) (Hcat : cat_q = None \/ cat_q = Some "all") :
  let resp := recommendationsResponse cy ids cat_q (Some L) page_q details
                trendingR popularR topRatedR similar in
  (Z.of_nat (resp_total resp) <= 3 * L)%Z /\ (resp_totalPages resp <= 3)%Z.
Proof.
  intros resp.
  assert (HpL : parse_or 20 (Some L) = L) by (simpl; destruct (Z.eqb_spec L 0); lia).
  unfold resp, recommendationsResponse. cbv zeta. rewrite HpL. simpl.
  assert (Hc : (match cat_q with Some c => c | None => "all" end) = "all")
    by (destruct Hcat as [->| ->]; reflexivity).
  rewrite Hc. unfold filterByCategory. simpl.
  set (recs := allRecommendations cy details ids trendingR popularR topRatedR similar L).
  assert (Hlen : (Z.of_nat (length recs) <= 3 * L)%Z).
  { rewrite Z.mul_comm. apply generateRecommendations_length. lia. }
  split; [exact Hlen|].
  change 3%Z with (Qceiling (inject_Z 3)). apply Qceiling_resp_le.
  apply Qle_shift_div_r; [unfold Qlt; simpl; lia|].
  unfold nat_Q. rewrite <- inject_Z_mult, <- Zle_Qle. exact Hlen.
Qed.

Lemma recommendations_all_bound_witness :
  ((1 <= 2)%Z /\ (None : option string) = None) /\
  let resp := recommendationsResponse 2026 [1%Z] None (Some 2%Z) None example_details
                example_trending FetchNotOk FetchNotOk (fun _ => FetchNotOk) in
  (Z.of_nat (resp_total resp) <= 3 * 2)%Z /\ (resp_totalPages resp <= 3)%Z.
Proof.
  split; [split; [lia|reflexivity]|].
  exact (recommendations_all_bound 2026 [1%Z] None 2 None example_details
           example_trending FetchNotOk FetchNotOk (fun _ => FetchNotOk)
           ltac:(lia) (or_introl eq_refl)).
Defined.

Lemma validWatchlistMovies_length (details : Z -> option movie) (ids : list Z) :
  (length (validWatchlistMovies details ids) <= length (firstn 50 ids))%nat.
Proof.
  unfold validWatchlistMovies. induction (firstn 50 ids) as [|i l IH]; simpl; [lia|].
  destruct (details i); simpl; lia.
Qed.

(** [watchlistSize] is at most 50 and at most the number of ids sent; when
    it is 0 (no id, or every detail fetch failed) the route answers in
    cold-start mode: no preferences, and only [trending] recommendations. *)
Theorem recommendations_watchlist_size (cy : Z) (ids : list Z) (cat_q : option string)
    (limit_q page_q : option Z) (details : Z -> option movie)
    (trendingR popularR topRatedR : fetch_result) (similar : Z -> fetch_result) :
  let resp := recommendationsResponse cy ids cat_q limit_q page_q details
                trendingR popularR topRatedR similar in
  (resp_watchlistSize resp <= 50)%nat /\ (resp_watchlistSize resp <= length ids)%nat /\
  (resp_watchlistSize resp = 0%nat ->
   resp_preferences resp = None /\
   forall r, In r (resp_recommendations resp) -> rec_category r = trending).
Proof.
  intros resp. unfold resp, recommendationsResponse. cbv zeta. simpl.
  pose proof (validWatchlistMovies_length details ids) as Hl.
  rewrite length_firstn in Hl.
  split; [lia|split; [lia|]].
  intros H0. apply length_zero_iff_nil in H0. rewrite H0. split; [reflexivity|].
  intros r Hr. apply in_js_slice, filterByCategory_in in Hr.
  unfold allRecommendations in Hr. rewrite H0 in Hr.
  destruct (in_trending _ _ _ Hr) as (mv & _ & _ & ->). reflexivity.
Qed.

(** With saved ratings in [0, 10] and no saved item listing a genre twice,
    every favourite genre weighs between 0 and 1. *)
Theorem favorite_genre_weights_unit (cy : Z) (wl : list movie) (p : UserPreferences)
    (Hp : analyzePreferences cy wl = Some p)
    (Hnd : forall w, In w wl -> NoDup (genre_ids w))
    (Hr : forall w, In w wl -> 0 <= or0 (vote_average w) <= 10) :
  forall gp, In gp (favorite_genres p) -> 0 <= gp_weight gp /\ gp_weight gp <= 1.
Proof.
  intros gp Hgp. rewrite (favorite_genres_of cy wl p Hp) in Hgp. split.
  - apply (favoriteGenres_weights_nonneg wl); [intros w Hw; apply (Hr w Hw)|exact Hgp].
  - rewrite (favoriteGenres_weight_spec wl gp Hgp).
    apply spec_genre_weight_le_1; [exact Hnd|intros w Hw; apply (Hr w Hw)].
Qed.

Lemma favorite_genre_weights_unit_witness :
  exists p, analyzePreferences 2026 [saved_action; cand_action] = Some p /\
  forall gp, In gp (favorite_genres p) -> 0 <= gp_weight gp /\ gp_weight gp <= 1.
Proof.
  eexists. split; [reflexivity|].
  apply (favorite_genre_weights_unit 2026 [saved_action; cand_action]).
  - reflexivity.
  - intros w [<-|[<-|[]]]; repeat constructor; intros [].
  - intros w [<-|[<-|[]]]; split; discriminate.
Defined.

Lemma watchlistReducer_unique_entries_witness :
  unique_entries (items (watchlistReducer "t1"
    (mkState [mkItem 42 "Heat" None None None None 8 "" movie_kind "t0" false None;
              mkItem 42 "Heat" (Some "Heat") None None None 7 "" tv_kind "t0" false None]
             false)
    (ADD_ITEM (mkItem 7 "Alien" None None None None 8 "" movie_kind "t1" false None)))) /\
  unique_entries (items (watchlistReducer "t1"
    (mkState [mkItem 42 "Heat" None None None None 8 "" movie_kind "t0" false None;
              mkItem 42 "Heat" (Some "Heat") None None None 7 "" tv_kind "t0" false None]
             false)
    (TOGGLE_WATCHED 42 true))).
Proof.
  split.
  - apply (watchlistReducer_unique_entries "t1"
      (mkState [mkItem 42 "Heat" None None None None 8 "" movie_kind "t0" false None;
                mkItem 42 "Heat" (Some "Heat") None None None 7 "" tv_kind "t0" false None]
               false)).
    + unfold unique_entries. simpl. repeat constructor; simpl; intuition discriminate.
    + intros l H. discriminate.
  - apply (watchlistReducer_unique_entries "t1"
      (mkState [mkItem 42 "Heat" None None None None 8 "" movie_kind "t0" false None;
                mkItem 42 "Heat" (Some "Heat") None None None 7 "" tv_kind "t0" false None]
               false)).
    + unfold unique_entries. simpl. repeat constructor; simpl; intuition discriminate.
    + intros l H. discriminate.
Defined.

(** ** Persistence *)

Lemma run_op_saved (now : string) (p : Provider) (op : user_op) :
  loading (pstate p) = false -> storage p = Some (items (pstate p)) ->
  loading (pstate (run_op now p op)) = false /\
  storage (run_op now p op) = Some (items (pstate (run_op now p op))).
Proof.
  intros Hl Hs.
  assert (Hd : forall a, (forall l, a <> LOAD_WATCHLIST l) -> (forall b, a <> SET_LOADING b) ->
            loading (pstate (provider_dispatch now p a)) = false /\
            storage (provider_dispatch now p a) =
            Some (items (pstate (provider_dispatch now p a)))).
  { intros a H1 H2. unfold provider_dispatch, save_effect. simpl.
    assert (Hl' : loading (watchlistReducer now (pstate p) a) = false).
    { destruct a as [b|l|it|i|i w|]; simpl; try exact Hl.
      - exfalso. exact (H2 b eq_refl).
      - reflexivity.
      - destruct (existsb _ _); [exact Hl|exact Hl]. }
    rewrite Hl'. simpl. split; [exact Hl'|reflexivity]. }
  destruct op as [item|i|i|]; simpl;
    try (apply Hd; intros; discriminate).
  destruct (find_item i (items (pstate p))); [apply Hd; intros; discriminate|].
  split; assumption.
Qed.

Lemma run_session_saved (ops : list (string * user_op)) (p : Provider) :
  loading (pstate p) = false -> storage p = Some (items (pstate p)) ->
  loading (pstate (run_session p ops)) = false /\
  storage (run_session p ops) = Some (items (pstate (run_session p ops))).
Proof.
  revert p. induction ops as [|[now op] ops IH]; simpl; intros p Hl Hs;
    [split; assumption|].
  destruct (run_op_saved now p op Hl Hs) as [Hl' Hs']. exact (IH _ Hl' Hs').
Qed.

(** Whatever the stored entry, after the mount and any session of user
    operations the provider is not loading, the stored entry holds exactly
    the current items, and mounting again from that entry restores the same
    state. *)
Theorem watchlist_persistence (now0 now1 : string) (stored : option (list WatchlistItem))
    (ops : list (string * user_op)) :
  let p := run_session (mount now0 stored) ops in
  loading (pstate p) = false /\ storage p = Some (items (pstate p)) /\
  pstate (mount now1 (storage p)) = pstate p.
Proof.
  intros p.
  assert (H : loading (pstate p) = false /\ storage p = Some (items (pstate p)))
    by (apply run_session_saved; destruct stored; reflexivity).
  destruct H as [Hl Hs]. split; [exact Hl|split; [exact Hs|]].
  rewrite Hs. unfold mount, provider_dispatch, save_effect. simpl.
  destruct (pstate p) as [its ld]. simpl in Hl. now subst ld.
Qed.
